(** * GutenDocs: the documentation-extraction pipeline of [src/parser/extract.js]

    A shallow embedding of [acornParse], [errorHandler], [exclude] and
    [extract], followed by the properties of the pipeline.

    The third-party packages the file requires ([acorn-jsx], [fs], [path],
    [ignore-walk]) and the settings resolver [getRC] are collaborators: they
    are gathered in the class [Collaborators] and every definition is written
    against it.  [acorn/dist/walk]'s [findNodeAfter] is a small tree search
    and is written out, with the walker's lack of visitors for JSX nodes. *)

From Stdlib Require Import List String Ascii Bool Arith ZArith QArith Lia DecimalString.
Import ListNotations.
Open Scope string_scope.
Open Scope list_scope.
Open Scope nat_scope.

(** String concatenation, written apart from list append. *)
Infix "+++" := String.append (at level 60, right associativity).

(* ------------------------------------------------------------------ *)
(** ** JavaScript values, exceptions, completions *)

(** The value of a [name] property: a string, or [undefined] when the object
    has no such property. *)
Inductive jsval : Type :=
| JUndefined
| JString (s : string).

Inductive exn : Type :=
| SyntaxError (message : string)
| TypeError (message : string)
| SystemError (message : string).

Definition message (e : exn) : string :=
  match e with
  | SyntaxError m | TypeError m | SystemError m => m
  end.

(** How a call ends: it returns, or it throws. *)
Inductive completion (A : Type) : Type :=
| Normal (a : A)
| Throw (e : exn).
Arguments Normal {A} a.
Arguments Throw {A} e.

(** Code that mutates an object of type [S] and may throw. *)
Definition M (St A : Type) : Type := St -> St * completion A.

Definition ret {St A} (a : A) : M St A := fun s => (s, Normal a).

Definition throw {St A} (e : exn) : M St A := fun s => (s, Throw e).

Definition bind {St A B} (m : M St A) (k : A -> M St B) : M St B :=
  fun s =>
    match m s with
    | (s', Normal a) => k a s'
    | (s', Throw e) => (s', Throw e)
    end.

Definition modify {St} (f : St -> St) : M St unit := fun s => (f s, Normal tt).

Definition gets {St A} (f : St -> A) : M St A := fun s => (s, Normal (f s)).

Declare Scope js_scope.
Delimit Scope js_scope with js.
Notation "x <- m ;; k" := (bind m (fun x => k))
  (at level 61, m at next level, right associativity) : js_scope.
Notation "m ;; k" := (bind m (fun _ => k))
  (at level 61, right associativity) : js_scope.
Open Scope js_scope.

(** [Array.prototype.push] on the object held in the state. *)
Definition push {A} (x : A) : M (list A) unit := modify (fun l => l ++ [x]).

(** [Array.prototype.forEach]: the callback runs on each element in index
    order; an exception leaves the loop. *)
Fixpoint forEach {St A} (l : list A) (f : A -> M St unit) : M St unit :=
  match l with
  | [] => ret tt
  | x :: l' => f x ;; forEach l' f
  end.

(** [Array.prototype.map] with the [(element, index)] callback of [extract];
    [i] is the index of the head of [l]. *)
Fixpoint mapFrom {St A B} (i : nat) (l : list A) (f : A -> nat -> M St B)
  : M St (list B) :=
  match l with
  | [] => ret []
  | x :: l' => y <- f x i ;; ys <- mapFrom (S i) l' f ;; ret (y :: ys)
  end.

Definition map_ {St A B} (l : list A) (f : A -> nat -> M St B) : M St (list B) :=
  mapFrom 0 l f.

(** A settled promise. *)
Inductive promise (A : Type) : Type :=
| Resolved (a : A)
| Rejected (e : exn).
Arguments Resolved {A} a.
Arguments Rejected {A} e.

(* ------------------------------------------------------------------ *)
(** ** Syntax trees *)

(** A node that the binder reads only through [.name]: an [Identifier] has
    the property, every other node kind (ObjectPattern, ArrayPattern,
    Literal, ...) does not. *)
Inductive named : Type :=
| Identifier (name : string)
| Unnamed (type : string).

Definition name_of (n : named) : jsval :=
  match n with
  | Identifier x => JString x
  | Unnamed _ => JUndefined
  end.

Record VariableDeclarator : Type := { id : named }.

(** [node.type] with the fields the binder reads.  The [id] of a
    [FunctionDeclaration] is [null] for [export default function () {}]. *)
Inductive shape : Type :=
| MethodDefinition (key : named)
| VariableDeclaration (declarations : list VariableDeclarator)
| FunctionDeclaration (fid : option named)
| OtherNode (type : string).

(** A node with its [start] and [end] offsets and the child nodes in the
    order the walker visits them. *)
#[local] Unset Elimination Schemes.
Inductive node : Type :=
| Node (sh : shape) (start end_ : nat) (children : list node).
#[local] Set Elimination Schemes.

Definition node_shape (n : node) : shape := let 'Node sh _ _ _ := n in sh.
Definition node_start (n : node) : nat := let 'Node _ s _ _ := n in s.
Definition node_end (n : node) : nat := let 'Node _ _ e _ := n in e.
Definition node_children (n : node) : list node := let 'Node _ _ _ cs := n in cs.

(** The node kinds acorn's walker has a visitor for: those of the language,
    not the JSX kinds the plugin adds. *)
Definition walker_knows (sh : shape) : bool :=
  match sh with
  | OtherNode type => negb (String.prefix "JSX" type)
  | _ => true
  end.

(** [findNodeAfter(node, pos)] of acorn's walker: a pre-order walk that
    leaves a node ending before [pos] and stops at the first node starting
    at or after [pos]; [Normal None] is [undefined].  To go below a node the
    walk calls the visitor of its kind, and throws where there is none. *)
Fixpoint findNodeAfter (n : node) (pos : nat) : completion (option node) :=
  match n with
  | Node sh s e cs =>
      if e <? pos then Normal None
      else if pos <=? s then Normal (Some n)
      else if negb (walker_knows sh)
      then Throw (TypeError "base[type] is not a function")
      else
        (fix walk (l : list node) : completion (option node) :=
           match l with
           | [] => Normal None
           | c :: l' =>
               match findNodeAfter c pos with
               | Normal None => walk l'
               | found_or_thrown => found_or_thrown
               end
           end) cs
  end.

(** The walk over a list of siblings, as a function of its own. *)
Fixpoint findFirstAfter (l : list node) (pos : nat) : completion (option node) :=
  match l with
  | [] => Normal None
  | c :: l' =>
      match findNodeAfter c pos with
      | Normal None => findFirstAfter l' pos
      | found_or_thrown => found_or_thrown
      end
  end.

(** All nodes of a tree, in walk order. *)
Fixpoint nodes (n : node) : list node :=
  match n with
  | Node _ _ _ cs => n :: flat_map nodes cs
  end.

(** Siblings are laid out left to right without overlap. *)
Fixpoint siblings_ordered (l : list node) : bool :=
  match l with
  | [] => true
  | c :: l' =>
      match l' with
      | [] => true
      | c' :: _ => (node_end c <=? node_start c') && siblings_ordered l'
      end
  end.

(** A tree whose offsets follow the source text: a node spans its children
    and the walker meets the children in source order. *)
Fixpoint well_nested (n : node) : bool :=
  match n with
  | Node _ s e cs =>
      (s <=? e)
      && forallb (fun c => (s <=? node_start c) && (node_end c <=? e)) cs
      && siblings_ordered cs
      && forallb well_nested cs
  end.

(** The node begins before [pos] and does not end before it: the walk to
    [pos] goes below such a node. *)
Definition spans (m : node) (pos : nat) : bool :=
  (node_start m <? pos) && (pos <=? node_end m).

(** No node of a kind unknown to the walker spans [pos]. *)
Definition walkable (tree : node) (pos : nat) : bool :=
  forallb (fun m => negb (spans m pos) || walker_knows (node_shape m)) (nodes tree).

(* ------------------------------------------------------------------ *)
(** ** The parser's interface *)

(** The arguments of one [onComment(block, text, start, end)] call. *)
Record comment_call : Type := {
  c_block : bool;
  c_text : string;
  c_start : nat;
  c_end : nat
}.

(** What [parse(content, options)] does: it calls [onComment] for the
    comments it has read, in source order, and then returns the tree or
    throws. *)
Record parse_run : Type := {
  onComment_calls : list comment_call;
  parse_completion : completion node
}.

(** [.gutenrc.json] as [getRC] returns it. *)
Record RC : Type := {
  absPath : string;
  apiDir : string;
  verbosity : Z
}.

Class Collaborators : Type := {
  parse : string -> parse_run;
  readFileSync : string -> completion string;
  path_dirname : string -> string;
  path_relative : string -> string -> string;
  path_extname : string -> string;
  getRC : RC;
  (** [process.stdout] is a terminal: only then does it have the methods
      [clearLine] and [cursorTo]. *)
  stdout_isTTY : bool;
  (** [new Walker({path, ignoreFiles})] with the rule installed by
      [onReadIgnoreFile], run to its [done] or [error] event. *)
  walker : string -> string -> promise (list string)
}.

(* ------------------------------------------------------------------ *)
(** ** Records of the pipeline *)

(** An element of [arr] in [acornParse]. *)
Record RawComment : Type := {
  raw_comment : string;
  pos : nat
}.

Record TaggedComment : Type := {
  comment : string;
  name : jsval
}.

(** The [tag] object of [extract]. *)
Record FileResult : Type := {
  content : list TaggedComment;
  file_name : string
}.

(** What the terminal receives. *)
Inductive output : Type :=
| ConsoleLog (s : string)
| ConsoleLogError (e : exn)
| ClearLine
| CursorTo (column : nat)
| StdoutWrite (s : string).

(** The objects the callback of [extract] mutates: the [badFiles] array and
    what has been sent to [process.stdout]. *)
Record ext_state : Type := {
  badFiles : list string;
  stdout : list output
}.

Definition show_nat (n : nat) : string := NilEmpty.string_of_uint (Nat.to_uint n).

(** [t[0] === '*'] *)
Definition first_is_star (t : string) : bool :=
  match String.get 0 t with
  | Some c => Ascii.eqb c "*"%char
  | None => false
  end.

(** [s.slice(0, -1)] *)
Definition drop_last (s : string) : string :=
  String.substring 0 (String.length s - 1) s.

(** [['.js', '.jsx'].includes(ext)] *)
Definition is_source_ext (ext : string) : bool :=
  String.eqb ext ".js" || String.eqb ext ".jsx".

Definition nl : string := String (ascii_of_nat 10) EmptyString.

(* ------------------------------------------------------------------ *)
(** ** The pipeline *)

Section Pipeline.

Context `{Collaborators}.

(** *** [exclude]: the Selector *)

Definition ROOT : string := path_dirname (drop_last (absPath getRC)).

(** The reducer of [arr.reduce(..., '*')]. *)
Definition add_rule (r p : string) : string :=
  let relPath := path_relative ROOT p in
  if is_source_ext (path_extname p)
  then r +++ nl +++ "!" +++ relPath +++ "/**/*.js" +++ nl +++ "!" +++ relPath
         +++ "/**/*.jsx" +++ nl +++ "!" +++ relPath
  else r +++ nl +++ "!" +++ relPath +++ "/**/*.js" +++ nl +++ "!" +++ relPath
         +++ "/**/*.jsx".

Definition exclude (arr : list string) : promise (list string) :=
  let rule := fold_left add_rule arr "*" in
  walker ROOT rule.

(** *** [acornParse]: Parser and Binder *)

(** The [onComment] option: it pushes on [arr]. *)
Definition onComment (c : comment_call) : M (list RawComment) unit :=
  if c_block c && first_is_star (c_text c)
  then push {| raw_comment := c_text c; pos := c_end c |}
  else ret tt.

(** The callback of [arr.forEach]: it pushes on [tagContent]. *)
Definition bindComment (tree : node) (c : RawComment)
  : M (list TaggedComment) unit :=
  match findNodeAfter tree (pos c) with
  | Throw e => throw e
  | Normal None => ret tt
  | Normal (Some n) =>
      match node_shape n with
      | MethodDefinition key =>
          push {| comment := raw_comment c; name := name_of key |}
      | VariableDeclaration ds =>
          forEach ds
            (fun declaration =>
               push {| comment := raw_comment c;
                       name := name_of (id declaration) |})
      | FunctionDeclaration fid =>
          match fid with
          | Some i => push {| comment := raw_comment c; name := name_of i |}
          | None => throw (TypeError "Cannot read property 'name' of null")
          end
      | OtherNode _ => ret tt
      end
  end.

(** [arr] once [parse] has made its [onComment] calls. *)
Definition collected (run : parse_run) : list RawComment :=
  fst (forEach (onComment_calls run) onComment []).

Definition acornParse (content : string) : M (list TaggedComment) unit :=
  let run := parse content in
  let arr := collected run in
  match parse_completion run with
  | Throw e => throw e
  | Normal tree => forEach arr (bindComment tree)
  end.

(** *** [errorHandler] *)

Definition emit (o : output) : M ext_state unit :=
  modify (fun st => {| badFiles := badFiles st; stdout := stdout st ++ [o] |}).

Definition errorHandler (file : string) (gutenrc : RC) (e : exn)
  : M ext_state unit :=
  modify (fun st => {| badFiles := badFiles st ++ [file]; stdout := stdout st |}) ;;
  if (verbosity gutenrc >=? 4)%Z then
    emit (ConsoleLog (nl +++ nl +++ "Error processing " +++ file +++ nl
                        +++ "**********")) ;;
    emit (ConsoleLogError e) ;;
    emit (ConsoleLog ("**********" +++ nl))
  else if (verbosity gutenrc >=? 3)%Z then
    emit (ConsoleLog (nl +++ nl +++ "Error processing " +++ file +++ nl
                        +++ "**********" +++ nl +++ message e +++ nl
                        +++ "**********" +++ nl))
  else ret tt.

(** *** [extract]: the Orchestrator *)

(** A call whose outcome does not depend on the mutable objects. *)
Definition call {St A} (c : completion A) : M St A := fun s => (s, c).

Definition file_path (gutenrc : RC) (file : string) : string :=
  path_dirname (absPath gutenrc) +++ "/" +++ file.

(** [process.stdout.clearLine()] and [process.stdout.cursorTo(x)]: calls of
    methods that a stream other than a terminal does not have. *)
Definition clearLine : M ext_state unit :=
  if stdout_isTTY then emit ClearLine
  else throw (TypeError "process.stdout.clearLine is not a function").

Definition cursorTo (column : nat) : M ext_state unit :=
  if stdout_isTTY then emit (CursorTo column)
  else throw (TypeError "process.stdout.cursorTo is not a function").

(** The callback of [list.map]. *)
Definition processFile (gutenrc : RC) (file : string) (fileCount : nat)
  : M ext_state FileResult :=
  content <- call (readFileSync (file_path gutenrc file)) ;;
  let '(tagContent, outcome) := acornParse content [] in
  match outcome with
  | Normal _ => ret tt
  | Throw e => errorHandler file gutenrc e
  end ;;
  (if (verbosity gutenrc >=? 2)%Z then
     clearLine ;;
     cursorTo 0 ;;
     emit (StdoutWrite ("Files Processed: " +++ show_nat fileCount)) ;;
     cursorTo 25 ;;
     emit (StdoutWrite (String.substring 0 60 file))
   else ret tt) ;;
  ret {| content := tagContent; file_name := file |}.

(** The callback of [exclude(arr).then], on the [list] the Selector resolved
    with; its value is [result]. *)
Definition onSelected (selected : list string)
  : M ext_state (list FileResult) :=
  let gutenrc := getRC in
  result <- map_ selected (processFile gutenrc) ;;
  emit (ConsoleLog ("Files Processed: " +++ show_nat (List.length selected))) ;;
  bad <- gets badFiles ;;
  (if negb (List.length bad =? 0) && (verbosity gutenrc >=? 2)%Z then
     emit (ConsoleLog (nl +++ nl +++ "The following " +++ show_nat (List.length bad)
                         +++ " files were unparsable" +++ nl +++ "***********")) ;;
     forEach bad (fun fileName => emit (ConsoleLog fileName))
   else if negb (List.length bad =? 0) && (verbosity gutenrc >=? 1)%Z then
     emit (ConsoleLog (show_nat (List.length bad) +++ " files were unparsable"))
   else ret tt) ;;
  ret result.

(** [badFiles] is created empty by the callback; nothing is printed yet. *)
Definition start : ext_state := {| badFiles := []; stdout := [] |}.

(** [promise.then(cb)]: a rejection passes through, an exception in [cb]
    rejects, the value of [cb] resolves. *)
Definition then_ {A B} (p : promise A) (cb : A -> M ext_state B)
  : ext_state * promise B :=
  match p with
  | Rejected e => (start, Rejected e)
  | Resolved a =>
      match cb a start with
      | (st, Normal b) => (st, Resolved b)
      | (st, Throw e) => (st, Rejected e)
      end
  end.

(** A run of [extract]: the objects it leaves behind and the promise. *)
Definition extract_run (arr : list string)
  : ext_state * promise (list FileResult) :=
  then_ (exclude arr) onSelected.

Definition extract (arr : list string) : promise (list FileResult) :=
  snd (extract_run arr).

(** *** Read-offs used in the statements *)

(** The paths [extract] has pushed on [badFiles]. *)
Definition failed (arr : list string) : list string :=
  badFiles (fst (extract_run arr)).

(** What [extract] has sent to the terminal. *)
Definition printed (arr : list string) : list output :=
  stdout (fst (extract_run arr)).

(** [acornParse] on a fresh [tag.content]. *)
Definition tagsOf (text : string) : list TaggedComment :=
  fst (acornParse text []).

Definition throwsOn (text : string) : bool :=
  match snd (acornParse text []) with
  | Throw _ => true
  | Normal _ => false
  end.

Definition readable (file : string) : Prop :=
  exists text, readFileSync (file_path getRC file) = Normal text.

(** The text of a file, [""] where the read throws. *)
Definition textOf (file : string) : string :=
  match readFileSync (file_path getRC file) with
  | Normal text => text
  | Throw _ => ""
  end.

(** The tags a comment contributes once its node is known. *)
Definition tagsFor (tree : node) (c : RawComment) : list TaggedComment :=
  fst (bindComment tree c []).

(** The test of [onComment] and the element it pushes. *)
Definition is_doc (c : comment_call) : bool :=
  c_block c && first_is_star (c_text c).

Definition raw_of (c : comment_call) : RawComment :=
  {| raw_comment := c_text c; pos := c_end c |}.

(** The [tag] object a readable file ends up as. *)
Definition resultOf (file : string) : FileResult :=
  {| content := tagsOf (textOf file); file_name := file |}.

(** [acornParse] throws on the text of the file. *)
Definition unparsable (file : string) : bool := throwsOn (textOf file).

(** The progress display can be shown: it is not asked for (verbosity below
    2), or [process.stdout] is a terminal. *)
Definition progress_available (gutenrc : RC) : bool :=
  negb (verbosity gutenrc >=? 2)%Z || stdout_isTTY.

End Pipeline.

(* ------------------------------------------------------------------ *)
(** ** A small platform on which the pipeline can be run

    The source texts of the scenarios with the calls and the tree acorn
    yields for each, a disk given as a table, and string versions of the
    [path] functions. *)

Module Demo.

Definition text_add : string :=
  "/** Adds two numbers */" +++ nl +++ "function add(a, b) { return a + b; }".

Definition text_flags : string :=
  "/** Config flag */" +++ nl +++ "const DEBUG = true, VERBOSE = false;".

Definition text_pair : string :=
  "/** Pair */" +++ nl +++ "const { a, b } = pair, c = 1;".

Definition text_trailing : string :=
  "var x = 1;" +++ nl +++ "/** tail */".

Definition text_plain : string := "var x = 1;".

Definition text_broken : string :=
  "/** Doc */" +++ nl +++ "function f() {".

Definition text_default : string :=
  "/** A */" +++ nl +++ "function a() {}" +++ nl
  +++ "export default /** B */ function () {}".

Definition text_dowhile : string :=
  "do { /** d */ var x = 1; } while (y);".

Definition text_jsx : string :=
  "const a = <p>{/** c */}</p>;".

Definition leaf (type : string) (s e : nat) : node := Node (OtherNode type) s e [].

Definition tree_add : node :=
  Node (OtherNode "Program") 0 60
    [Node (FunctionDeclaration (Some (Identifier "add"))) 24 60
       [leaf "Identifier" 33 36; leaf "Identifier" 37 38; leaf "Identifier" 40 41;
        Node (OtherNode "BlockStatement") 43 60
          [Node (OtherNode "ReturnStatement") 45 58
             [Node (OtherNode "BinaryExpression") 52 57
                [leaf "Identifier" 52 53; leaf "Identifier" 56 57]]]]].

Definition declarators_flags : list VariableDeclarator :=
  [ {| id := Identifier "DEBUG" |}; {| id := Identifier "VERBOSE" |} ].

Definition declaration_flags : node :=
  Node (VariableDeclaration declarators_flags) 19 55
    [Node (OtherNode "VariableDeclarator") 25 37
       [leaf "Identifier" 25 30; leaf "Literal" 33 37];
     Node (OtherNode "VariableDeclarator") 39 54
       [leaf "Identifier" 39 46; leaf "Literal" 49 54]].

Definition tree_flags : node :=
  Node (OtherNode "Program") 0 55 [declaration_flags].

Definition declarators_pair : list VariableDeclarator :=
  [ {| id := Unnamed "ObjectPattern" |}; {| id := Identifier "c" |} ].

Definition declaration_pair : node :=
  Node (VariableDeclaration declarators_pair) 12 41
    [Node (OtherNode "VariableDeclarator") 18 33
       [Node (OtherNode "ObjectPattern") 18 26
          [leaf "Identifier" 20 21; leaf "Identifier" 23 24];
        leaf "Identifier" 29 33];
     Node (OtherNode "VariableDeclarator") 35 40
       [leaf "Identifier" 35 36; leaf "Literal" 39 40]].

Definition tree_pair : node :=
  Node (OtherNode "Program") 0 41 [declaration_pair].

Definition tree_plain : node :=
  Node (OtherNode "Program") 0 10
    [Node (VariableDeclaration [ {| id := Identifier "x" |} ]) 0 10
       [Node (OtherNode "VariableDeclarator") 4 9
          [leaf "Identifier" 4 5; leaf "Literal" 8 9]]].

Definition tree_trailing : node :=
  Node (OtherNode "Program") 0 22
    [Node (VariableDeclaration [ {| id := Identifier "x" |} ]) 0 10
       [Node (OtherNode "VariableDeclarator") 4 9
          [leaf "Identifier" 4 5; leaf "Literal" 8 9]]].

Definition tree_default : node :=
  Node (OtherNode "Program") 0 63
    [Node (FunctionDeclaration (Some (Identifier "a"))) 9 24
       [leaf "Identifier" 18 19; leaf "BlockStatement" 22 24];
     Node (OtherNode "ExportDefaultDeclaration") 25 63
       [Node (FunctionDeclaration None) 49 63
          [leaf "BlockStatement" 61 63]]].

(** In a [do ... while] the walker visits the test before the body. *)
Definition declaration_x : node :=
  Node (VariableDeclaration [ {| id := Identifier "x" |} ]) 14 24
    [Node (OtherNode "VariableDeclarator") 18 23
       [leaf "Identifier" 18 19; leaf "Literal" 22 23]].

Definition tree_dowhile : node :=
  Node (OtherNode "Program") 0 37
    [Node (OtherNode "DoWhileStatement") 0 37
       [leaf "Identifier" 34 35;
        Node (OtherNode "BlockStatement") 3 26 [declaration_x]]].

Definition tree_jsx : node :=
  Node (OtherNode "Program") 0 28
    [Node (VariableDeclaration [ {| id := Identifier "a" |} ]) 0 28
       [Node (OtherNode "VariableDeclarator") 6 27
          [leaf "Identifier" 6 7;
           Node (OtherNode "JSXElement") 10 27
             [Node (OtherNode "JSXOpeningElement") 10 13
                [leaf "JSXIdentifier" 11 12];
              Node (OtherNode "JSXExpressionContainer") 13 23
                [leaf "JSXEmptyExpression" 14 22];
              Node (OtherNode "JSXClosingElement") 23 27
                [leaf "JSXIdentifier" 25 26]]]]].

Definition doc (t : string) (s e : nat) : comment_call :=
  {| c_block := true; c_text := t; c_start := s; c_end := e |}.

(** The calls and the tree acorn yields for each text. *)
Definition run_add : parse_run :=
  {| onComment_calls := [doc "* Adds two numbers " 0 23];
     parse_completion := Normal tree_add |}.

Definition run_flags : parse_run :=
  {| onComment_calls := [doc "* Config flag " 0 18];
     parse_completion := Normal tree_flags |}.

Definition run_pair : parse_run :=
  {| onComment_calls := [doc "* Pair " 0 11];
     parse_completion := Normal tree_pair |}.

Definition run_trailing : parse_run :=
  {| onComment_calls := [doc "* tail " 11 22];
     parse_completion := Normal tree_trailing |}.

Definition run_plain : parse_run :=
  {| onComment_calls := [];
     parse_completion := Normal tree_plain |}.

Definition run_broken : parse_run :=
  {| onComment_calls := [doc "* Doc " 0 10];
     parse_completion := Throw (SyntaxError "Unexpected token (2:14)") |}.

Definition run_default : parse_run :=
  {| onComment_calls := [doc "* A " 0 8; doc "* B " 40 48];
     parse_completion := Normal tree_default |}.

Definition run_dowhile : parse_run :=
  {| onComment_calls := [doc "* d " 5 13];
     parse_completion := Normal tree_dowhile |}.

Definition run_jsx : parse_run :=
  {| onComment_calls := [doc "* c " 14 22];
     parse_completion := Normal tree_jsx |}.

(** The runs of [parse] on the texts above; any other text is refused. *)
Definition runs : list (string * parse_run) :=
  [ (text_add, run_add); (text_flags, run_flags); (text_pair, run_pair);
    (text_trailing, run_trailing); (text_plain, run_plain);
    (text_broken, run_broken); (text_default, run_default);
    (text_dowhile, run_dowhile); (text_jsx, run_jsx) ].

Fixpoint lookup {A} (k : string) (table : list (string * A)) : option A :=
  match table with
  | [] => None
  | (k', v) :: rest => if String.eqb k k' then Some v else lookup k rest
  end.

Definition acorn (text : string) : parse_run :=
  match lookup text runs with
  | Some run => run
  | None =>
      {| onComment_calls := [];
         parse_completion := Throw (SyntaxError "Unexpected token (1:0)") |}
  end.

Definition slash : ascii := "/"%char.

Fixpoint drop_slashes (l : list ascii) : list ascii :=
  match l with
  | c :: l' => if Ascii.eqb c slash then drop_slashes l' else l
  | [] => []
  end.

Fixpoint drop_segment (l : list ascii) : list ascii :=
  match l with
  | c :: l' => if Ascii.eqb c slash then l' else drop_segment l'
  | [] => []
  end.

(** [path.dirname] on absolute POSIX paths below the root. *)
Definition dirname (p : string) : string :=
  string_of_list_ascii
    (rev (drop_segment (drop_slashes (rev (list_ascii_of_string p))))).

Fixpoint after_last_dot (l : list ascii) (acc : list ascii) : list ascii :=
  match l with
  | c :: l' =>
      if Ascii.eqb c "."%char then c :: acc
      else if Ascii.eqb c slash then []
      else after_last_dot l' (c :: acc)
  | [] => []
  end.

(** [path.extname] *)
Definition extname (p : string) : string :=
  string_of_list_ascii (after_last_dot (rev (list_ascii_of_string p)) []).

(** [path.relative] for a path given below [from] or already relative. *)
Definition relative (from to : string) : string :=
  let prefix := from +++ "/" in
  if String.prefix prefix to
  then String.substring (String.length prefix)
         (String.length to - String.length prefix) to
  else to.

Definition read (disk : list (string * string)) (p : string) : completion string :=
  match lookup p disk with
  | Some text => Normal text
  | None => Throw (SystemError "ENOENT: no such file or directory")
  end.

Definition rc (v : Z) : RC :=
  {| absPath := "/work/site/"; apiDir := "api/"; verbosity := v |}.

(** A platform: whether [process.stdout] is a terminal, the files on
    [disk], the list the walker ends with, and the configured verbosity. *)
Definition platform_on (tty : bool) (disk : list (string * string))
  (listing : promise (list string)) (v : Z) : Collaborators :=
  {| parse := acorn;
     readFileSync := read disk;
     path_dirname := dirname;
     path_relative := relative;
     path_extname := extname;
     getRC := rc v;
     stdout_isTTY := tty;
     walker := fun _ _ => listing |}.

(** A platform run in a terminal. *)
Definition platform : list (string * string) -> promise (list string) -> Z
                      -> Collaborators :=
  platform_on true.

Definition disk_ok : list (string * string) :=
  [ ("/work/add.js", text_add); ("/work/flags.js", text_flags);
    ("/work/plain.js", text_plain) ].

Definition disk_broken : list (string * string) :=
  [ ("/work/add.js", text_add); ("/work/plain.js", text_broken);
    ("/work/flags.js", text_flags) ].

Definition disk_default : list (string * string) :=
  [ ("/work/default.js", text_default) ].

Definition disk_mixed : list (string * string) :=
  [ ("/work/pair.js", text_pair); ("/work/trailing.js", text_trailing) ].

Definition quiet_ok : Collaborators :=
  platform disk_ok (Resolved ["add.js"; "plain.js"; "flags.js"]) 0.

Definition quiet_broken : Collaborators :=
  platform disk_broken (Resolved ["add.js"; "plain.js"; "flags.js"]) 0.

Definition loud_broken : Collaborators :=
  platform disk_broken (Resolved ["add.js"; "plain.js"; "flags.js"]) 2.

Definition with_default : Collaborators :=
  platform disk_default (Resolved ["default.js"]) 0.

(** The output goes to a pipe and progress is asked for. *)
Definition piped_broken : Collaborators :=
  platform_on false disk_broken (Resolved ["add.js"; "plain.js"; "flags.js"]) 2.

(** The output goes to a pipe and progress is not asked for. *)
Definition piped_quiet : Collaborators :=
  platform_on false disk_broken (Resolved ["add.js"; "plain.js"; "flags.js"]) 1.

(** [gone.js] was selected and is no longer on the disk. *)
Definition with_missing : Collaborators :=
  platform disk_ok (Resolved ["add.js"; "gone.js"; "flags.js"]) 0.

End Demo.

(* ------------------------------------------------------------------ *)
(** ** [client/src/components/GeneratedFunc.jsx] *)

Module Render.

(** The [type] member of a doctrine tag: an object with its own [type]. *)
Record TypeNode : Type := { type : string }.

(** A doctrine tag; [tag.type] is [null] where the comment gives no type. *)
Record Tag : Type := {
  title : string;
  tag_type : option TypeNode;
  tag_name : jsval
}.

Record FuncComment : Type := {
  fc_name : jsval;
  tags : list Tag
}.

(** A value placed in a template literal. *)
Definition template (v : jsval) : string :=
  match v with
  | JUndefined => "undefined"
  | JString s => s
  end.

Definition is_param (tag : Tag) : bool := String.eqb (title tag) "param".

(** The callback of [.map((tag, index, allParams) => ...)]. *)
Definition renderParam (allParams : list Tag) (tag : Tag) (index : nat)
  : M unit string :=
  ty <- match tag_type tag with
        | Some ty => ret ty
        | None => throw (TypeError "Cannot read property 'type' of null")
        end ;;
  let param : list string := [] in
  let param :=
    if String.eqb (type ty) "OptionalType"
    then param ++ [" [" +++ template (tag_name tag) +++ "]"]
    else param ++ [" " +++ template (tag_name tag)] in
  let param :=
    if List.length allParams =? index + 1 then param ++ [" "] else param in
  ret (String.concat "" param).

(** [String.prototype.concat] turns an array argument into its elements
    joined by commas. *)
Definition BodyFunctionDesc (funcComment : FuncComment) : completion string :=
  let head := "      " +++ template (fc_name funcComment) +++ "(" in
  let params := filter is_param (tags funcComment) in
  match snd (map_ params (renderParam params) tt) with
  | Throw e => Throw e
  | Normal rendered => Normal ((head +++ String.concat "," rendered) +++ ")")
  end.

(** One parameter as it is shown, without the closing blank. *)
Definition shown (tag : Tag) : string :=
  match tag_type tag with
  | Some ty =>
      if String.eqb (type ty) "OptionalType"
      then " [" +++ template (tag_name tag) +++ "]"
      else " " +++ template (tag_name tag)
  | None => ""
  end.

Definition typed (tag : Tag) : bool :=
  match tag_type tag with
  | Some _ => true
  | None => false
  end.

Definition demo_comment : FuncComment :=
  {| fc_name := JString "add";
     tags :=
       [ {| title := "param"; tag_type := Some {| type := "NameExpression" |};
            tag_name := JString "a" |};
         {| title := "returns"; tag_type := None; tag_name := JUndefined |};
         {| title := "param"; tag_type := Some {| type := "OptionalType" |};
            tag_name := JString "b" |} ] |}.

Definition demo_untyped : FuncComment :=
  {| fc_name := JString "add";
     tags :=
       [ {| title := "param"; tag_type := Some {| type := "NameExpression" |};
            tag_name := JString "a" |};
         {| title := "param"; tag_type := None; tag_name := JString "b" |} ] |}.

End Render.

(* ------------------------------------------------------------------ *)
(** ** [src/utils.js]

    The settings files are JSON documents with an object at the root.
    [JSON.parse], [JSON.stringify], the [path] functions and the directory
    listing belong to the host; the files are a table the functions read and
    write. *)

Module Utils.

(** A JavaScript number. *)
Inductive number : Type :=
| Finite (q : Q)
| NaN
| PlusInfinity
| MinusInfinity.

#[local] Unset Elimination Schemes.
Inductive json : Type :=
| JsonNull
| JsonBool (b : bool)
| JsonNumber (q : Q)
| JsonString (s : string)
| JsonArray (items : list json)
| JsonObject (members : list (string * json)).
#[local] Set Elimination Schemes.

(** An object: its own properties in insertion order (the keys of the
    settings files are not array indices). *)
Definition object : Type := list (string * json).

(** [o[k]]; [None] is [undefined]. *)
Fixpoint get {V} (k : string) (o : list (string * V)) : option V :=
  match o with
  | [] => None
  | (k', v) :: rest => if String.eqb k k' then Some v else get k rest
  end.

(** [o[k] = v]: an existing property keeps its place. *)
Fixpoint set {V} (k : string) (v : V) (o : list (string * V))
  : list (string * V) :=
  match o with
  | [] => [(k, v)]
  | (k', v') :: rest =>
      if String.eqb k k' then (k, v) :: rest else (k', v') :: set k v rest
  end.

(** [delete o[k]] *)
Definition delete {V} (k : string) (o : list (string * V)) : list (string * V) :=
  filter (fun kv => negb (String.eqb k (fst kv))) o.

Definition keys {V} (o : list (string * V)) : list string := map fst o.

(** [Object.assign(target, source)] *)
Definition assign (target source : object) : object :=
  fold_left (fun t kv => set (fst kv) (snd kv) t) source target.

(** What is thrown: [new Error(message)], or an exception of the runtime. *)
Inductive thrown : Type :=
| Error (message : string)
| Native (e : exn).

Inductive outcome (A : Type) : Type :=
| Returned (a : A)
| Threw (t : thrown).
Arguments Returned {A} a.
Arguments Threw {A} t.

(** A call of [refreshFile(oldFile, source, null, error)]; it opens the
    prompt and returns. *)
Record refresh_call : Type := {
  oldFile : string;
  source : string;
  error : exn
}.

(** The files, and the prompts opened so far. *)
Record host_state : Type := {
  disk : list (string * string);
  refreshing : list refresh_call
}.

Class Host : Type := {
  JSON_parse : string -> completion object;
  JSON_stringify : object -> string;
  dirname : string -> string;
  extname : string -> string;
  basename : string -> string -> string;
  (** [__dirname] *)
  module_dirname : string;
  (** [fs.realpathSync('./')] *)
  realpath_cwd : string;
  readdirSync : string -> completion (list string);
  (** the directories that exist *)
  directory : string -> bool;
  (** what [require] makes of the text of a module *)
  evaluate : string -> completion object
}.

(** Code of [utils.js]: it works on the files and may throw. *)
Definition U (A : Type) : Type := host_state -> host_state * outcome A.

Definition uret {A} (a : A) : U A := fun st => (st, Returned a).

Definition uthrow {A} (t : thrown) : U A := fun st => (st, Threw t).

Definition ubind {A B} (m : U A) (k : A -> U B) : U B :=
  fun st =>
    match m st with
    | (st', Returned a) => k a st'
    | (st', Threw t) => (st', Threw t)
    end.

(** [try { m } catch (err) { handler(err) }] *)
Definition try_catch {A} (m : U A) (handler : thrown -> U A) : U A :=
  fun st =>
    match m st with
    | (st', Returned a) => (st', Returned a)
    | (st', Threw t) => handler t st'
    end.

(** A call into the runtime. *)
Definition native {A} (c : completion A) : U A :=
  fun st =>
    match c with
    | Normal a => (st, Returned a)
    | Throw e => (st, Threw (Native e))
    end.

Declare Scope utils_scope.
Delimit Scope utils_scope with utils.
Notation "x <- m ;; k" := (ubind m (fun x => k))
  (at level 61, m at next level, right associativity) : utils_scope.
Notation "m ;; k" := (ubind m (fun _ => k))
  (at level 61, right associativity) : utils_scope.
#[local] Open Scope utils_scope.

Section WithHost.

Context `{Host}.

Definition has_file (p : string) (st : host_state) : bool :=
  match get p (disk st) with
  | Some _ => true
  | None => false
  end.

Definition exists_at (st : host_state) (p : string) : bool :=
  directory p || has_file p st.

Definition existsSync (p : string) : U bool :=
  fun st => (st, Returned (exists_at st p)).

Definition readFileSync (p : string) : U string :=
  fun st =>
    match get p (disk st) with
    | Some text => (st, Returned text)
    | None => (st, Threw (Native (SystemError "ENOENT: no such file or directory")))
    end.

Definition writeFileSync (p text : string) : U unit :=
  fun st =>
    ({| disk := set p text (disk st); refreshing := refreshing st |},
     Returned tt).

Definition refreshFile (old src : string) (err : exn) : U unit :=
  fun st =>
    ({| disk := disk st;
        refreshing := refreshing st
                        ++ [ {| oldFile := old; source := src; error := err |} ] |},
     Returned tt).

(** *** [fillBlanksWithDefaults] *)

Definition fillBlanksWithDefaults (defaultSettingsPath assignedSettings : string)
  : U object :=
  text <- readFileSync defaultSettingsPath ;;
  defaultConfig <- native (JSON_parse text) ;;
  assigned <- native (JSON_parse assignedSettings) ;;
  let mergedSettings := assign defaultConfig assigned in
  uret mergedSettings.

(** *** [findValidBackupName] *)

(** The [while] loop: [filecount] grows while the numbered name exists;
    [None] when [fuel] rounds were not enough. *)
Fixpoint countUp (fuel : nat) (taken : nat -> bool) (filecount : nat)
  : option nat :=
  if taken filecount then
    match fuel with
    | 0 => None
    | S fuel' => countUp fuel' taken (S filecount)
    end
  else Some filecount.

Definition findValidBackupName (fuel : nat) (location baseName : string)
  (st : host_state) : option string :=
  let backupExt := extname baseName in
  let backupName := basename baseName backupExt +++ ".backup" in
  if exists_at st ((location +++ backupName) +++ backupExt) then
    match countUp fuel
            (fun filecount =>
               exists_at st
                 (((location +++ backupName) +++ show_nat filecount) +++ backupExt))
            0 with
    | Some filecount => Some ((backupName +++ show_nat filecount) +++ backupExt)
    | None => None
    end
  else Some (backupName +++ backupExt).

(** *** [getRC] *)

Definition lists_rc (names : list string) : bool :=
  negb (List.length (filter (fun file => String.eqb file ".gutenrc.json") names) =? 0).

(** The [while] loop, from a [targetPath] with [rcpath] still [false]; it
    ends with [(rcpath, targetPath)]. *)
Fixpoint climb (fuel : nat) (targetPath : string)
  : option (outcome (bool * string)) :=
  if String.eqb targetPath (dirname targetPath) then
    Some (Returned (false, targetPath))
  else
    match fuel with
    | 0 => None
    | S fuel' =>
        match readdirSync targetPath with
        | Throw e => Some (Threw (Native e))
        | Normal names =>
            let rcpath := lists_rc names in
            if negb rcpath then climb fuel' (dirname targetPath)
            else Some (Returned (true, targetPath))
        end
    end.

Definition missing_apiDir : string :=
  "Your gutenrc folder seems to be missing a apiDir key indicating where the folder should be. Either add a key of apiDir with a value of the name of your api folder or delete the RC file and reinitialize.  A backup of your Api Folder will be created as [folderName].backup#.".

Definition not_initialized : string :=
  "You have not initialized gutendocs.  Call " +++ String (ascii_of_nat 34) "gutendocs init"
  +++ String (ascii_of_nat 34) EmptyString.

(** The part of [getRC] after the loop; [None] is [false]. *)
Definition afterClimb (rcpath : bool) (targetPath : string) : U (option object) :=
  if rcpath then
    gutenrc <- readFileSync (targetPath +++ "/.gutenrc.json") ;;
    match JSON_parse gutenrc with
    | Throw err =>
        refreshFile (targetPath +++ "/.gutenrc.json")
          "client/dist/.gutenRCTemplate.json" err ;;
        uret None
    | Normal parsed =>
        match get "apiDir" parsed with
        | None => uthrow (Error missing_apiDir)
        | Some gutenfolder =>
            let RCTemplatePath :=
              dirname module_dirname +++ "/client/dist/.gutenRCTemplate.json" in
            missingValuesFilled <- fillBlanksWithDefaults RCTemplatePath gutenrc ;;
            uret (Some (assign [("absPath", JsonString (targetPath +++ "/"))]
                          missingValuesFilled))
        end
    end
  else uthrow (Error not_initialized).

Definition getRC (fuel : nat) (st : host_state)
  : option (host_state * outcome (option object)) :=
  match climb fuel realpath_cwd with
  | None => None
  | Some (Threw t) => Some (st, Threw t)
  | Some (Returned (rcpath, targetPath)) => Some (afterClimb rcpath targetPath st)
  end.

(** *** [setVerbosity] *)

(** The [level] argument: a number, or a value of another type. *)
Inductive level_arg : Type :=
| LevelNumber (n : number)
| LevelOther (typeof : string).

Definition is_number (level : level_arg) : bool :=
  match level with
  | LevelNumber _ => true
  | LevelOther _ => false
  end.

(** [level >= 0] *)
Definition ge0 (level : level_arg) : bool :=
  match level with
  | LevelNumber (Finite q) => Qle_bool 0 q
  | LevelNumber PlusInfinity => true
  | _ => false
  end.

(** [level <= 5] *)
Definition le5 (level : level_arg) : bool :=
  match level with
  | LevelNumber (Finite q) => Qle_bool q 5
  | LevelNumber MinusInfinity => true
  | _ => false
  end.

(** The number as a member of a settings object. *)
Definition json_of_level (level : level_arg) : json :=
  match level with
  | LevelNumber (Finite q) => JsonNumber q
  | _ => JsonNull
  end.

(** [gutenrc.absPath.concat(suffix)]: a [TypeError] unless [absPath] is a
    string. *)
Definition absPath_concat (gutenrc : object) (suffix : string) : U string :=
  match get "absPath" gutenrc with
  | Some (JsonString p) => uret (p +++ suffix)
  | _ => uthrow (Native (TypeError "gutenrc.absPath.concat is not a function"))
  end.

Definition pathToGlobal : string :=
  dirname module_dirname +++ "/client/dist/.gutenRCTemplate.json".

(** [gutenrc] is the settings object or [false]. *)
Definition setVerbosity (level : level_arg) (gutenrc : option object)
  (globally : bool) : U unit :=
  if is_number level && ge0 level && le5 level then
    match gutenrc with
    | Some rc =>
        p <- absPath_concat rc ".gutenrc.json" ;;
        text <- readFileSync p ;;
        newSettings <- native (JSON_parse text) ;;
        let newSettings := set "verbosity" (json_of_level level) newSettings in
        let newSettings := JSON_stringify newSettings in
        p' <- absPath_concat rc ".gutenrc.json" ;;
        writeFileSync p' newSettings
    | None => uret tt
    end ;;
    if globally then
      text <- readFileSync pathToGlobal ;;
      globalSettings <- native (JSON_parse text) ;;
      let globalSettings := set "verbosity" (json_of_level level) globalSettings in
      let globalSettings := delete "absPath" globalSettings in
      let globalSettings := JSON_stringify globalSettings in
      writeFileSync pathToGlobal globalSettings
    else uret tt
  else uthrow (Error "Verbosity level must be a number from 0 to 5").

(** *** [addIgnoreToLangSettings] *)

Definition gutenignoreLangSetting : object :=
  [ ("files.associations", JsonObject [ (".gutenignore", JsonString "ignore") ]) ].

(** The value is [(currentSettings, readErr)]. *)
Definition readCurrentSettings (settingsPath : string)
  : U (object * option thrown) :=
  present <- existsSync settingsPath ;;
  if present then
    try_catch
      (text <- readFileSync settingsPath ;;
       parsed <- native (JSON_parse text) ;;
       uret (parsed, None))
      (fun err => uret ([], Some err))
  else uret ([], None).

Definition addIgnoreToLangSettings (absPath : string) : U unit :=
  let vscodePath := absPath +++ ".vscode/" in
  present <- existsSync vscodePath ;;
  if present then
    r <- readCurrentSettings (vscodePath +++ "settings.json") ;;
    let '(currentSettings, readErr) := r in
    match readErr with
    | None =>
        let newSettings := assign currentSettings gutenignoreLangSetting in
        writeFileSync (vscodePath +++ "settings.json") (JSON_stringify newSettings)
    | Some _ => uret tt
    end
  else uret tt.

(** *** [addDesignSettingsTemplate] and [setTheme] *)

Definition addDesignSettingsTemplate (newDesign : string) : string :=
  "const configData = " +++ newDesign
  +++ ";" +++ nl +++ "try {" +++ nl +++ "  window.configData = configData;" +++ nl
  +++ "} catch (error) {" +++ nl +++ "  module.exports = configData;" +++ nl +++ "}".

(** [require(path)], for a module not loaded before: its text is found and
    evaluated. *)
Definition require (p : string) : U object :=
  fun st =>
    match get p (disk st) with
    | Some text => native (evaluate text) st
    | None => (st, Threw (Error ("Cannot find module '" +++ p +++ "'")))
    end.

Definition setTheme (gutenrc : RC) (themeName : string) : U unit :=
  let pathToDesignSettings := (absPath gutenrc +++ apiDir gutenrc) +++ "designSettings.js" in
  designSettings <- require pathToDesignSettings ;;
  let pathToTheme :=
    absPath gutenrc +++ (apiDir gutenrc +++ "Themes/" +++ themeName +++ ".json") in
  text <- readFileSync pathToTheme ;;
  themeToLoad <- native (JSON_parse text) ;;
  let themeToLoad := delete "description" themeToLoad in
  let newDesignSettings := JSON_stringify (assign designSettings themeToLoad) in
  writeFileSync pathToDesignSettings (addDesignSettingsTemplate newDesignSettings).

End WithHost.

End Utils.

(** ** A small host on which [utils.js] can be run *)

Module UtilsDemo.

Import Utils.

Definition quote : string := String (ascii_of_nat 34) EmptyString.

Definition show_Z (z : Z) : string :=
  match z with
  | Z0 => "0"
  | Zpos p => show_nat (Pos.to_nat p)
  | Zneg p => "-" +++ show_nat (Pos.to_nat p)
  end.

(** A plain serializer: members in order, no indentation. *)
Fixpoint stringify (j : json) : string :=
  match j with
  | JsonNull => "null"
  | JsonBool b => if b then "true" else "false"
  | JsonNumber q =>
      match Qden q with
      | xH => show_Z (Qnum q)
      | d => show_Z (Qnum q) +++ "/" +++ show_nat (Pos.to_nat d)
      end
  | JsonString s => quote +++ s +++ quote
  | JsonArray items => "[" +++ String.concat "," (map stringify items) +++ "]"
  | JsonObject members =>
      "{" +++ String.concat ","
                (map (fun kv => quote +++ fst kv +++ quote +++ ":" +++ stringify (snd kv))
                   members)
      +++ "}"
  end.

Definition stringify_object (o : object) : string := stringify (JsonObject o).

Definition rc_user : object :=
  [ ("apiDir", JsonString "api/"); ("verbosity", JsonNumber 3) ].

Definition rc_template : object :=
  [ ("apiDir", JsonString "docs/"); ("verbosity", JsonNumber 2);
    ("sortBy", JsonString "name") ].

Definition rc_template_stale : object :=
  [ ("absPath", JsonString "/old/"); ("apiDir", JsonString "docs/");
    ("verbosity", JsonNumber 2) ].

Definition vscode_settings : object :=
  [ ("editor.tabSize", JsonNumber 2);
    ("files.associations", JsonObject [ ("*.tpl", JsonString "html") ]) ].

Definition design : object :=
  [ ("description", JsonString "current look"); ("color", JsonString "blue");
    ("font", JsonString "serif") ].

Definition theme_dark : object :=
  [ ("description", JsonString "A dark theme"); ("color", JsonString "black") ].

(** The documents the host can parse; any other text is refused. *)
Definition documents : list object :=
  [ rc_user; rc_template; rc_template_stale; vscode_settings; design; theme_dark ].

Definition parse_json (text : string) : completion object :=
  match get text (map (fun o => (stringify_object o, o)) documents) with
  | Some o => Normal o
  | None => Throw (SyntaxError "Unexpected token in JSON at position 0")
  end.

(** The text of a design settings module gives back its object. *)
Definition evaluate_module (text : string) : completion object :=
  match get text
          (map (fun o => (addDesignSettingsTemplate (stringify_object o), o))
             [ design; assign design (delete "description" theme_dark) ]) with
  | Some o => Normal o
  | None => Throw (SyntaxError "Unexpected token")
  end.

Definition posix_dirname (p : string) : string :=
  match Demo.dirname p with
  | EmptyString => "/"
  | d => d
  end.

Fixpoint last_segment (l acc : list ascii) : list ascii :=
  match l with
  | c :: l' => if Ascii.eqb c Demo.slash then acc else last_segment l' (c :: acc)
  | [] => acc
  end.

Definition posix_basename (p ext : string) : string :=
  let b := string_of_list_ascii (last_segment (rev (list_ascii_of_string p)) []) in
  let n := String.length b - String.length ext in
  if String.eqb (String.substring n (String.length ext) b) ext
  then String.substring 0 n b
  else b.

Definition listing (dir : string) : completion (list string) :=
  match get dir
          [ ("/work/site/src", ["a.js"; "b.js"]);
            ("/work/site", ["src"; ".gutenrc.json"; "package.json"]);
            ("/work", [".gutenrc.json"; "site"]);
            ("/", [".gutenrc.json"; "work"]) ] with
  | Some names => Normal names
  | None => Throw (SystemError "ENOENT: no such file or directory, scandir")
  end.

Definition is_directory (p : string) : bool :=
  existsb (String.eqb p)
    [ "/"; "/work"; "/work/site"; "/work/site/src"; "/work/site/.vscode/";
      "/work/site/api/" ].

(** The host, started in [cwd]. *)
Definition host (cwd : string) : Host :=
  {| JSON_parse := parse_json;
     JSON_stringify := stringify_object;
     dirname := posix_dirname;
     extname := Demo.extname;
     basename := posix_basename;
     module_dirname := "/opt/gutendocs/src";
     realpath_cwd := cwd;
     readdirSync := listing;
     directory := is_directory;
     evaluate := evaluate_module |}.

Definition template_path : string := "/opt/gutendocs/client/dist/.gutenRCTemplate.json".

Definition files : list (string * string) :=
  [ ("/work/site/.gutenrc.json", stringify_object rc_user);
    (template_path, stringify_object rc_template);
    ("/work/site/.vscode/settings.json", stringify_object vscode_settings);
    ("/work/site/exam.backup.js", "old");
    ("/work/site/exam.backup0.js", "older");
    ("/work/site/api/designSettings.js",
     addDesignSettingsTemplate (stringify_object design));
    ("/work/site/api/Themes/dark.json", stringify_object theme_dark) ].

Definition state : host_state := {| disk := files; refreshing := [] |}.

(** The settings file of the project is not JSON. *)
Definition state_corrupt : host_state :=
  {| disk := set "/work/site/.gutenrc.json" "{ apiDir: " files;
     refreshing := [] |}.

(** The template is gone. *)
Definition state_no_template : host_state :=
  {| disk := delete template_path files; refreshing := [] |}.

(** The template carries an [absPath] of its own. *)
Definition state_stale : host_state :=
  {| disk := set template_path (stringify_object rc_template_stale) files;
     refreshing := [] |}.

(** [getRC]'s object for the project. *)
Definition gutenrc : object :=
  [ ("absPath", JsonString "/work/site/"); ("apiDir", JsonString "api/");
    ("verbosity", JsonNumber 3); ("sortBy", JsonString "name") ].

Definition rc_record : RC :=
  {| absPath := "/work/site/"; apiDir := "api/"; verbosity := 3 |}.

End UtilsDemo.

(* ------------------------------------------------------------------ *)
(** * Properties *)

(** ** Loops that only push *)

Lemma forEach_push {A B} (g : A -> B) (l : list A) (s : list B) :
  forEach l (fun x => push (g x)) s = (s ++ map g l, Normal tt).
Proof.
  revert s; induction l as [|x l IH]; intros s; simpl.
  - now rewrite app_nil_r.
  - unfold bind, push at 1, modify; simpl.
    rewrite IH, <- app_assoc. reflexivity.
Qed.

Lemma forEach_app {St A} (l1 l2 : list A) (f : A -> M St unit) (s : St) :
  forEach (l1 ++ l2) f s =
  match forEach l1 f s with
  | (s', Normal _) => forEach l2 f s'
  | (s', Throw e) => (s', Throw e)
  end.
Proof.
  revert s; induction l1 as [|x l1 IH]; intros s; simpl.
  - reflexivity.
  - unfold bind. destruct (f x s) as [s' [[]|e]]; [apply IH | reflexivity].
Qed.

Lemma append_nil_r (s : string) : s +++ EmptyString = s.
Proof. induction s as [|c s IH]; simpl; [reflexivity | now rewrite IH]. Qed.

Lemma append_assoc (a b c : string) : (a +++ b) +++ c = a +++ (b +++ c).
Proof. induction a as [|x a IH]; simpl; [reflexivity | now rewrite IH]. Qed.

Lemma find_all_false {A} (f : A -> bool) (l : list A) :
  (forall x, In x l -> f x = false) -> find f l = None.
Proof.
  induction l as [|x l IH]; intros Hall; simpl; [reflexivity|].
  rewrite (Hall x (or_introl eq_refl)). apply IH. intros y Hy. apply Hall. now right.
Qed.

Lemma in_firstn {A} (k : nat) (l : list A) (x : A) :
  In x (firstn k l) -> In x l.
Proof.
  intros Hin. rewrite <- (firstn_skipn k l). apply in_or_app. now left.
Qed.

Lemma find_app {A} (f : A -> bool) (l1 l2 : list A) :
  find f (l1 ++ l2) = match find f l1 with Some x => Some x | None => find f l2 end.
Proof.
  induction l1 as [|x l1 IH]; simpl; [reflexivity|].
  destruct (f x); [reflexivity | exact IH].
Qed.

(** ** The tree search *)

Lemma node_ind (P : node -> Prop) :
  (forall sh s e cs, Forall P cs -> P (Node sh s e cs)) ->
  forall n, P n.
Proof.
  intros step. fix IH 1. intros [sh s e cs]. apply step.
  induction cs as [|c cs IHcs]; constructor; [apply IH | exact IHcs].
Qed.

Lemma findNodeAfter_unfold sh s e cs pos :
  findNodeAfter (Node sh s e cs) pos =
  if e <? pos then Normal None
  else if pos <=? s then Normal (Some (Node sh s e cs))
  else if negb (walker_knows sh)
  then Throw (TypeError "base[type] is not a function")
  else findFirstAfter cs pos.
Proof.
  simpl. destruct (e <? pos); [reflexivity|].
  destruct (pos <=? s); [reflexivity|].
  destruct (negb (walker_knows sh)); [reflexivity|].
  induction cs as [|c cs IH]; simpl; [reflexivity|].
  destruct (findNodeAfter c pos) as [[r|]|err]; [reflexivity | exact IH | reflexivity].
Qed.

Lemma in_nodes_self n : In n (nodes n).
Proof. destruct n; simpl; auto. Qed.

Lemma in_nodes_child sh s e cs c m :
  In c cs -> In m (nodes c) -> In m (nodes (Node sh s e cs)).
Proof.
  intros Hc Hm. simpl. right. apply in_flat_map. eauto.
Qed.

(** What is found lies in the tree and starts at or after [pos]. *)
Lemma findNodeAfter_sound n pos r :
  findNodeAfter n pos = Normal (Some r) -> In r (nodes n) /\ pos <= node_start r.
Proof.
  revert r. induction n as [sh s e cs IH] using node_ind. intros r.
  rewrite findNodeAfter_unfold.
  destruct (e <? pos) eqn:He; [discriminate|].
  destruct (pos <=? s) eqn:Hs.
  - intros [= <-]. split; [apply in_nodes_self|].
    simpl. now apply Nat.leb_le.
  - destruct (negb (walker_knows sh)); [discriminate|].
    induction cs as [|c cs IHcs]; simpl; [discriminate|].
    inversion IH as [|? ? Hc Hcs]; subst.
    destruct (findNodeAfter c pos) as [[r'|]|err] eqn:Hf.
    + intros [= <-]. destruct (Hc _ eq_refl) as [Hin Hle]. split; [|exact Hle].
      eapply in_nodes_child; [left; reflexivity | exact Hin].
    + intros Hrest. destruct (IHcs Hcs Hrest) as [Hin Hle]. split; [|exact Hle].
      simpl in Hin. destruct Hin as [Heq | Hin].
      * subst r. apply Nat.leb_gt in Hs. simpl in Hle. lia.
      * simpl. right. apply in_or_app. now right.
    + discriminate.
Qed.

Lemma well_nested_unfold sh s e cs :
  well_nested (Node sh s e cs) = true ->
  s <= e
  /\ Forall (fun c => s <= node_start c /\ node_end c <= e) cs
  /\ siblings_ordered cs = true
  /\ Forall (fun c => well_nested c = true) cs.
Proof.
  simpl. rewrite !andb_true_iff, !forallb_forall, !Forall_forall.
  intros [[[Hse Hspan] Hord] Hwf]. repeat split.
  - now apply Nat.leb_le.
  - apply Hspan in H. apply andb_true_iff in H. now apply Nat.leb_le.
  - apply Hspan in H. apply andb_true_iff in H. now apply Nat.leb_le.
  - exact Hord.
  - exact Hwf.
Qed.

(** In a well nested tree every node lies within the root's span. *)
Lemma nodes_within n :
  well_nested n = true ->
  forall m, In m (nodes n) ->
    node_start n <= node_start m /\ node_end m <= node_end n
    /\ node_start m <= node_end m.
Proof.
  induction n as [sh s e cs IH] using node_ind. intros Hwf m Hm.
  apply well_nested_unfold in Hwf. destruct Hwf as (Hse & Hspan & _ & Hwf).
  simpl in Hm. destruct Hm as [<- | Hm]; [simpl; lia|].
  apply in_flat_map in Hm. destruct Hm as (c & Hc & Hm).
  rewrite Forall_forall in IH, Hspan, Hwf.
  destruct (IH c Hc (Hwf c Hc) m Hm) as (H1 & H2 & H3).
  destruct (Hspan c Hc) as [H4 H5]. simpl. lia.
Qed.

(** Nothing is found only where nothing starts at or after [pos]. *)
Lemma findNodeAfter_none n pos :
  well_nested n = true ->
  findNodeAfter n pos = Normal None ->
  forall m, In m (nodes n) -> node_start m < pos.
Proof.
  induction n as [sh s e cs IH] using node_ind. intros Hwf.
  rewrite findNodeAfter_unfold.
  destruct (e <? pos) eqn:He.
  - intros _ m Hm. apply Nat.ltb_lt in He.
    destruct (nodes_within _ Hwf m Hm) as (_ & H2 & H3). simpl in H2. lia.
  - destruct (pos <=? s) eqn:Hs; [discriminate|].
    destruct (negb (walker_knows sh)); [discriminate|].
    apply Nat.leb_gt in Hs.
    apply well_nested_unfold in Hwf. destruct Hwf as (_ & _ & _ & Hwf).
    intros Hnone m Hm. simpl in Hm. destruct Hm as [<- | Hm]; [simpl; lia|].
    apply in_flat_map in Hm. destruct Hm as (c & Hc & Hm).
    clear Hs He. induction cs as [|c0 cs IHcs]; [destruct Hc|].
    simpl in Hnone.
    destruct (findNodeAfter c0 pos) as [[r0|]|err] eqn:Hf; try discriminate.
    inversion IH as [|? ? Hc0 Hcs]; subst.
    inversion Hwf as [|? ? Hw0 Hws]; subst.
    destruct Hc as [-> | Hc].
    + exact (Hc0 Hw0 Hf m Hm).
    + exact (IHcs Hcs Hws Hnone Hc).
Qed.

Lemma siblings_ordered_tail c cs :
  siblings_ordered (c :: cs) = true -> siblings_ordered cs = true.
Proof.
  simpl. destruct cs as [|c' cs]; [reflexivity|].
  intros Hc. apply andb_true_iff in Hc. apply Hc.
Qed.

(** Every later sibling starts at or after the end of an earlier one. *)
Lemma siblings_ordered_later c cs :
  siblings_ordered (c :: cs) = true ->
  Forall (fun d => node_start d <= node_end d) cs ->
  forall d, In d cs -> node_end c <= node_start d.
Proof.
  revert c. induction cs as [|c' cs IH]; intros c Hord Hse d Hd; [destruct Hd|].
  simpl in Hord. apply andb_true_iff in Hord. destruct Hord as [Hcc' Hord].
  apply Nat.leb_le in Hcc'.
  inversion Hse as [|? ? Hc' Hse']; subst.
  destruct Hd as [<- | Hd]; [exact Hcc'|].
  specialize (IH c' Hord Hse' d Hd). lia.
Qed.

(** What is found has the least start among the nodes at or after [pos]. *)
Lemma findNodeAfter_least n pos r :
  well_nested n = true ->
  findNodeAfter n pos = Normal (Some r) ->
  forall m, In m (nodes n) -> pos <= node_start m -> node_start r <= node_start m.
Proof.
  revert r. induction n as [sh s e cs IH] using node_ind. intros r Hwf.
  rewrite findNodeAfter_unfold.
  destruct (e <? pos) eqn:He; [discriminate|].
  destruct (pos <=? s) eqn:Hs.
  - intros [= <-] m Hm _.
    destruct (nodes_within _ Hwf m Hm) as (H1 & _). exact H1.
  - destruct (negb (walker_knows sh)); [discriminate|].
    apply Nat.leb_gt in Hs.
    apply well_nested_unfold in Hwf. destruct Hwf as (_ & _ & Hord & Hwf).
    intros Hfind m Hm Hpos. simpl in Hm.
    destruct Hm as [<- | Hm]; [simpl in Hpos; lia|].
    apply in_flat_map in Hm. destruct Hm as (c & Hc & Hm).
    clear Hs He. induction cs as [|c0 cs IHcs]; [destruct Hc|].
    inversion IH as [|? ? Hc0 Hcs]; subst.
    inversion Hwf as [|? ? Hw0 Hws]; subst.
    simpl in Hfind.
    destruct (findNodeAfter c0 pos) as [[r0|]|err] eqn:Hf; [| |discriminate].
    + injection Hfind as ->.
      destruct Hc as [-> | Hc]; [eapply Hc0; eauto|].
      destruct (findNodeAfter_sound _ _ _ Hf) as [Hr _].
      destruct (nodes_within _ Hw0 r Hr) as (_ & Hr2 & Hr3).
      assert (Hlater : node_end c0 <= node_start c).
      { apply (siblings_ordered_later c0 cs Hord); [|exact Hc].
        rewrite Forall_forall in Hws |- *. intros d Hd.
        destruct (nodes_within d (Hws d Hd) d (in_nodes_self d)) as (_ & _ & H3).
        exact H3. }
      rewrite Forall_forall in Hws.
      destruct (nodes_within _ (Hws c Hc) m Hm) as (Hm1 & _). lia.
    + destruct Hc as [-> | Hc].
      * pose proof (findNodeAfter_none _ _ Hw0 Hf m Hm). lia.
      * exact (IHcs Hcs (siblings_ordered_tail _ _ Hord) Hws Hfind Hc).
Qed.

Lemma walkable_iff tree pos :
  walkable tree pos = true
  <-> forall m, In m (nodes tree) ->
        spans m pos = true -> walker_knows (node_shape m) = true.
Proof.
  unfold walkable. rewrite forallb_forall. split; intros Hall m Hm.
  - intros Hspan. specialize (Hall m Hm). now rewrite Hspan in Hall.
  - destruct (spans m pos) eqn:Hspan; [|reflexivity]. simpl. now apply Hall.
Qed.

(** As long as the walk goes below nodes of known kinds only, what it
    returns is the first node, in walk order, starting at or after [pos]. *)
Lemma findNodeAfter_walk_order tree pos :
  well_nested tree = true ->
  walkable tree pos = true ->
  findNodeAfter tree pos
  = Normal (find (fun m => pos <=? node_start m) (nodes tree)).
Proof.
  induction tree as [sh s e cs IH] using node_ind. intros Hwf Hwalk.
  rewrite walkable_iff in Hwalk.
  rewrite findNodeAfter_unfold.
  destruct (e <? pos) eqn:He.
  - f_equal. symmetry. apply find_all_false. intros m Hm. apply Nat.ltb_lt in He.
    destruct (nodes_within _ Hwf m Hm) as (_ & H2 & H3). simpl in H2.
    apply Nat.leb_gt. lia.
  - cbn [nodes find node_start]. destruct (pos <=? s) eqn:Hs; [reflexivity|].
    assert (Hknown : walker_knows sh = true).
    { apply (Hwalk (Node sh s e cs) (in_nodes_self _)). unfold spans. simpl.
      apply Nat.ltb_ge in He. apply Nat.leb_gt in Hs.
      apply andb_true_iff. split; [now apply Nat.ltb_lt | now apply Nat.leb_le]. }
    rewrite Hknown. cbn [negb].
    apply well_nested_unfold in Hwf. destruct Hwf as (_ & _ & _ & Hwf).
    assert (Hsub : forall c, In c cs -> walkable c pos = true).
    { intros c Hc. apply walkable_iff. intros m Hm. apply Hwalk.
      eapply in_nodes_child; eassumption. }
    clear He Hs Hwalk Hknown. induction cs as [|c cs IHcs]; [reflexivity|].
    inversion IH as [|? ? Hc Hcs]; subst.
    inversion Hwf as [|? ? Hw Hws]; subst.
    cbn [findFirstAfter flat_map]. rewrite find_app.
    rewrite (Hc Hw (Hsub c (or_introl eq_refl))).
    destruct (find (fun m => pos <=? node_start m) (nodes c)); [reflexivity|].
    apply (IHcs Hcs Hws). intros c' Hc'. apply Hsub. now right.
Qed.

(** ** The steps of the pipeline *)

Section PipelineFacts.

Context `{Collaborators}.

Lemma forEach_onComment (calls : list comment_call) (arr : list RawComment) :
  forEach calls onComment arr = (arr ++ map raw_of (filter is_doc calls), Normal tt).
Proof.
  revert arr; induction calls as [|c calls IH]; intros arr; simpl.
  - now rewrite app_nil_r.
  - unfold bind, onComment at 1. fold (is_doc c).
    destruct (is_doc c); simpl; rewrite IH; [|reflexivity].
    now rewrite <- app_assoc.
Qed.

(** [arr] holds the block comments starting with a star, in call order. *)
Lemma collected_filter (run : parse_run) :
  collected run = map raw_of (filter is_doc (onComment_calls run)).
Proof. unfold collected. now rewrite forEach_onComment. Qed.

(** [bindComment] only appends to [tagContent]. *)
Lemma bindComment_frame tree c (s : list TaggedComment) :
  bindComment tree c s = (s ++ tagsFor tree c, snd (bindComment tree c [])).
Proof.
  unfold tagsFor, bindComment.
  destruct (findNodeAfter tree (pos c)) as [[n|]|err]; simpl.
  2, 3: now rewrite app_nil_r.
  destruct (node_shape n) as [key | ds | [i|] | ty]; simpl;
    rewrite ?forEach_push, ?app_nil_r; reflexivity.
Qed.

Lemma forEach_bind_normal tree arr (s : list TaggedComment) :
  Forall (fun c => snd (bindComment tree c []) = Normal tt) arr ->
  forEach arr (bindComment tree) s = (s ++ flat_map (tagsFor tree) arr, Normal tt).
Proof.
  intros Hall. revert s. induction Hall as [|c arr Hc _ IH]; intros s; simpl.
  - now rewrite app_nil_r.
  - unfold bind. rewrite bindComment_frame, Hc, IH, <- app_assoc. reflexivity.
Qed.

(** Whatever the loop ends with, [tagContent] has grown by the tags of a
    prefix of [arr], and of all of [arr] when the loop returns. *)
Lemma forEach_bind_prefix tree arr (s : list TaggedComment) :
  exists k,
    fst (forEach arr (bindComment tree) s)
      = s ++ flat_map (tagsFor tree) (firstn k arr)
    /\ (forall u, snd (forEach arr (bindComment tree) s) = Normal u ->
        firstn k arr = arr).
Proof.
  revert s. induction arr as [|c arr IH]; intros s; simpl.
  - exists 0; simpl. now rewrite app_nil_r.
  - unfold bind. rewrite bindComment_frame.
    destruct (snd (bindComment tree c [])) as [[]|e].
    + destruct (IH (s ++ tagsFor tree c)) as (k & Hk & Hall).
      exists (S k); simpl. rewrite Hk, <- app_assoc. split; [reflexivity|].
      intros u Hu. now rewrite (Hall u Hu).
    + exists 1; simpl. rewrite app_nil_r. split; [reflexivity | discriminate].
Qed.

Lemma forEach_bind_frame tree arr (s : list TaggedComment) :
  forEach arr (bindComment tree) s
  = (s ++ fst (forEach arr (bindComment tree) []),
     snd (forEach arr (bindComment tree) [])).
Proof.
  revert s. induction arr as [|c arr IH]; intros s; simpl.
  - now rewrite app_nil_r.
  - unfold bind. rewrite (bindComment_frame tree c s), (bindComment_frame tree c []).
    destruct (snd (bindComment tree c [])) as [[]|e]; simpl.
    + rewrite (IH (s ++ tagsFor tree c)), (IH (tagsFor tree c)). simpl.
      now rewrite app_assoc.
    + reflexivity.
Qed.

Lemma acornParse_throw text e (s : list TaggedComment) :
  parse_completion (parse text) = Throw e ->
  acornParse text s = (s, Throw e).
Proof. intros Hp. unfold acornParse. now rewrite Hp. Qed.

Lemma acornParse_normal text tree (s : list TaggedComment) :
  parse_completion (parse text) = Normal tree ->
  acornParse text s = forEach (collected (parse text)) (bindComment tree) s.
Proof. intros Hp. unfold acornParse. now rewrite Hp. Qed.

Lemma forEach_emit {A} (g : A -> output) (l : list A) (st : ext_state) :
  forEach l (fun x => emit (g x)) st
  = ({| badFiles := badFiles st; stdout := stdout st ++ map g l |}, Normal tt).
Proof.
  revert st; induction l as [|x l IH]; intros st; simpl.
  - destruct st; simpl. now rewrite app_nil_r.
  - unfold bind, emit at 1, modify. rewrite IH; simpl.
    now rewrite <- app_assoc.
Qed.

(** [errorHandler] returns and pushes the file on [badFiles]. *)
Lemma errorHandler_pushes file gutenrc e st :
  exists st',
    errorHandler file gutenrc e st = (st', Normal tt)
    /\ badFiles st' = badFiles st ++ [file].
Proof.
  unfold errorHandler, bind, emit, modify.
  destruct (verbosity gutenrc >=? 4)%Z; [|destruct (verbosity gutenrc >=? 3)%Z];
    simpl; eexists; split; reflexivity.
Qed.

(** After [acornParse], caught or not, [badFiles] has the file if it
    threw. *)
Lemma after_acornParse file gutenrc text st :
  exists st1,
    (match snd (acornParse text []) with
     | Normal _ => ret tt
     | Throw e => errorHandler file gutenrc e
     end) st = (st1, Normal tt)
    /\ badFiles st1 = badFiles st ++ (if throwsOn text then [file] else []).
Proof.
  unfold throwsOn. destruct (snd (acornParse text [])) as [[]|e].
  - exists st. split; [reflexivity|]. now rewrite app_nil_r.
  - apply errorHandler_pushes.
Qed.

(** The progress display of one file, where it is available. *)
Lemma progress_shown gutenrc file fileCount st :
  progress_available gutenrc = true ->
  exists st',
    (if (verbosity gutenrc >=? 2)%Z then
       clearLine ;;
       cursorTo 0 ;;
       emit (StdoutWrite ("Files Processed: " +++ show_nat fileCount)) ;;
       cursorTo 25 ;;
       emit (StdoutWrite (String.substring 0 60 file))
     else ret tt) st = (st', Normal tt)
    /\ badFiles st' = badFiles st.
Proof.
  unfold progress_available, clearLine, cursorTo.
  destruct (verbosity gutenrc >=? 2)%Z; simpl.
  - intros ->. unfold bind, emit, modify. simpl. eexists. split; reflexivity.
  - intros _. exists st. split; reflexivity.
Qed.

(** The progress display of one file, asked of a stream that is not a
    terminal. *)
Lemma progress_throws gutenrc file fileCount st :
  progress_available gutenrc = false ->
  (if (verbosity gutenrc >=? 2)%Z then
     clearLine ;;
     cursorTo 0 ;;
     emit (StdoutWrite ("Files Processed: " +++ show_nat fileCount)) ;;
     cursorTo 25 ;;
     emit (StdoutWrite (String.substring 0 60 file))
   else ret tt) st
  = (st, Throw (TypeError "process.stdout.clearLine is not a function")).
Proof.
  unfold progress_available, clearLine.
  destruct (verbosity gutenrc >=? 2)%Z; simpl; [|discriminate].
  intros ->. reflexivity.
Qed.

Lemma processFile_unfold gutenrc file fileCount text st :
  readFileSync (file_path gutenrc file) = Normal text ->
  processFile gutenrc file fileCount st
  = ((match snd (acornParse text []) with
      | Normal _ => ret tt
      | Throw e => errorHandler file gutenrc e
      end ;;
      (if (verbosity gutenrc >=? 2)%Z then
         clearLine ;;
         cursorTo 0 ;;
         emit (StdoutWrite ("Files Processed: " +++ show_nat fileCount)) ;;
         cursorTo 25 ;;
         emit (StdoutWrite (String.substring 0 60 file))
       else ret tt) ;;
      ret {| content := tagsOf text; file_name := file |}) st).
Proof.
  intros Hread. unfold processFile, call, tagsOf. unfold bind at 1. rewrite Hread.
  destruct (acornParse text []) as [tagContent outcome]. reflexivity.
Qed.

(** A file that can be read yields its [tag], whatever [acornParse] does,
    where the progress display is available. *)
Lemma processFile_readable gutenrc file fileCount text st :
  progress_available gutenrc = true ->
  readFileSync (file_path gutenrc file) = Normal text ->
  exists st',
    processFile gutenrc file fileCount st
      = (st', Normal {| content := tagsOf text; file_name := file |})
    /\ badFiles st' = badFiles st ++ (if throwsOn text then [file] else []).
Proof.
  intros Hterm Hread. rewrite (processFile_unfold _ _ _ _ _ Hread).
  destruct (after_acornParse file gutenrc text st) as (st1 & Hparse & Hbad1).
  destruct (progress_shown gutenrc file fileCount st1 Hterm) as (st2 & Hshow & Hbad2).
  unfold bind at 1. rewrite Hparse. unfold bind at 1. rewrite Hshow.
  exists st2. split; [reflexivity|]. now rewrite Hbad2.
Qed.

(** Where it is not, the callback throws after the [try] statement. *)
Lemma processFile_no_progress gutenrc file fileCount text st :
  progress_available gutenrc = false ->
  readFileSync (file_path gutenrc file) = Normal text ->
  exists st',
    processFile gutenrc file fileCount st
      = (st', Throw (TypeError "process.stdout.clearLine is not a function"))
    /\ badFiles st' = badFiles st ++ (if throwsOn text then [file] else []).
Proof.
  intros Hterm Hread. rewrite (processFile_unfold _ _ _ _ _ Hread).
  destruct (after_acornParse file gutenrc text st) as (st1 & Hparse & Hbad1).
  unfold bind at 1. rewrite Hparse. unfold bind at 1.
  rewrite (progress_throws gutenrc file fileCount st1 Hterm).
  exists st1. split; [reflexivity | exact Hbad1].
Qed.

Lemma processFile_unreadable gutenrc file fileCount e st :
  readFileSync (file_path gutenrc file) = Throw e ->
  processFile gutenrc file fileCount st = (st, Throw e).
Proof.
  intros Hread. unfold processFile, call. unfold bind at 1. now rewrite Hread.
Qed.

Lemma readable_textOf file :
  readable file -> readFileSync (file_path getRC file) = Normal (textOf file).
Proof. intros [text Ht]. unfold textOf. now rewrite Ht. Qed.

(** Over readable files [list.map] returns one [tag] per file, in order. *)
Lemma mapFrom_readable (l : list string) i st :
  progress_available getRC = true ->
  Forall readable l ->
  exists st',
    mapFrom i l (processFile getRC) st = (st', Normal (map resultOf l))
    /\ badFiles st' = badFiles st ++ filter unparsable l.
Proof.
  intros Hterm Hall. revert i st.
  induction Hall as [|file l Hr _ IH]; intros i st; simpl.
  - eexists; split; [reflexivity|]. now rewrite app_nil_r.
  - unfold bind at 1.
    destruct (processFile_readable getRC file i _ st Hterm (readable_textOf _ Hr))
      as (st1 & -> & Hbad1).
    unfold bind at 1.
    destruct (IH (S i) st1) as (st2 & -> & Hbad2).
    eexists; split; [reflexivity|].
    rewrite Hbad2, Hbad1, <- app_assoc. unfold unparsable at 2.
    now destruct (throwsOn (textOf file)).
Qed.

(** When [list.map] returns, every file was read, the progress display was
    available if a file was selected, and the value is one [tag] per file. *)
Lemma mapFrom_returned (l : list string) i st st' result :
  mapFrom i l (processFile getRC) st = (st', Normal result) ->
  result = map resultOf l
  /\ badFiles st' = badFiles st ++ filter unparsable l
  /\ Forall readable l
  /\ (l <> [] -> progress_available getRC = true).
Proof.
  revert i st st' result. induction l as [|file l IH]; intros i st st' result.
  - simpl. intros [= <- <-]. rewrite app_nil_r. repeat split; [constructor | congruence].
  - cbn [mapFrom]. unfold bind at 1.
    destruct (readFileSync (file_path getRC file)) as [text|e] eqn:Hread.
    2:{ rewrite (processFile_unreadable _ _ _ _ _ Hread). discriminate. }
    destruct (progress_available getRC) eqn:Hterm.
    2:{ destruct (processFile_no_progress getRC file i text st Hterm Hread)
          as (st1 & -> & _). discriminate. }
    assert (Hr : readable file) by (now exists text).
    destruct (processFile_readable getRC file i _ st Hterm (readable_textOf _ Hr))
      as (st1 & -> & Hbad1).
    unfold bind at 1.
    destruct (mapFrom (S i) l (processFile getRC) st1) as [st2 [rest|e]] eqn:Hrest;
      [|discriminate].
    intros [= <- <-].
    destruct (IH _ _ _ _ Hrest) as (-> & Hbad2 & Hall & _).
    split; [reflexivity|]. split.
    + rewrite Hbad2, Hbad1, <- app_assoc. cbn [filter].
      change (unparsable file) with (throwsOn (textOf file)).
      now destruct (throwsOn (textOf file)).
    + split; [now constructor | reflexivity].
Qed.

(** The first file that cannot be read ends [list.map] with its error. *)
Lemma mapFrom_unreadable (before after : list string) file e i st :
  progress_available getRC = true ->
  Forall readable before ->
  readFileSync (file_path getRC file) = Throw e ->
  exists st',
    mapFrom i (before ++ file :: after) (processFile getRC) st = (st', Throw e).
Proof.
  intros Hterm Hall Hread. revert i st.
  induction Hall as [|f l Hr _ IH]; intros i st; simpl.
  - unfold bind at 1. rewrite (processFile_unreadable _ _ _ _ _ Hread). eauto.
  - unfold bind at 1.
    destruct (processFile_readable getRC f i _ st Hterm (readable_textOf _ Hr))
      as (st1 & -> & _).
    unfold bind at 1. destruct (IH (S i) st1) as (st2 & ->). eauto.
Qed.

(** With a file that cannot be read, [list.map] throws. *)
Lemma mapFrom_throws (l : list string) file e i st :
  In file l ->
  readFileSync (file_path getRC file) = Throw e ->
  exists st' e', mapFrom i l (processFile getRC) st = (st', Throw e').
Proof.
  intros Hin Hread.
  destruct (mapFrom i l (processFile getRC) st) as [st' [result|e']] eqn:Hmap;
    [|eauto].
  destruct (mapFrom_returned _ _ _ _ _ Hmap) as (_ & _ & Hall & _).
  rewrite Forall_forall in Hall. destruct (Hall file Hin) as [text Htext].
  congruence.
Qed.

Lemma emit_run o st :
  emit o st = ({| badFiles := badFiles st; stdout := stdout st ++ [o] |}, Normal tt).
Proof. reflexivity. Qed.

(** After [list.map] the callback only prints: the summary, and the list
    of bad files at verbosity 2 and above, their number at verbosity 1. *)
Lemma onSelected_after_map (selected : list string) st result :
  map_ selected (processFile getRC) start = (st, Normal result) ->
  exists st',
    onSelected selected start = (st', Normal result)
    /\ badFiles st' = badFiles st
    /\ ((2 <= verbosity getRC)%Z -> badFiles st <> [] ->
        exists before, stdout st' = before ++ map ConsoleLog (badFiles st))
    /\ (verbosity getRC = 1%Z -> badFiles st <> [] ->
        exists before,
          stdout st'
          = before ++ [ConsoleLog (show_nat (List.length (badFiles st))
                                     +++ " files were unparsable")]).
Proof.
  intros Hmap. unfold onSelected.
  cbv beta iota zeta delta [bind]. rewrite Hmap, emit_run.
  cbv beta iota zeta delta [gets ret]. cbn [badFiles stdout].
  destruct (negb (List.length (badFiles st) =? 0)) eqn:Hlen; cbn [andb].
  - destruct (verbosity getRC >=? 2)%Z eqn:Hv2.
    + rewrite emit_run, forEach_emit. cbn [badFiles stdout].
      eexists; split; [reflexivity|]. cbn [badFiles stdout]. split; [reflexivity|].
      split.
      * intros _ _. eexists. reflexivity.
      * intros Hv1. rewrite Hv1 in Hv2. discriminate.
    + assert (Hlt : ~ (2 <= verbosity getRC)%Z).
      { rewrite Z.geb_leb in Hv2. apply Z.leb_gt in Hv2. lia. }
      destruct (verbosity getRC >=? 1)%Z eqn:Hv1; rewrite ?emit_run;
        eexists; (split; [reflexivity|]); (split; [reflexivity|]);
        (split; [intros Hge; contradiction|]); cbn [stdout].
      * intros _ _. eexists. reflexivity.
      * intros Heq. rewrite Heq in Hv1. discriminate.
  - eexists; split; [reflexivity|]. cbn [badFiles stdout]. split; [reflexivity|].
    assert (Hnil : badFiles st = []).
    { destruct (badFiles st); [reflexivity | discriminate]. }
    split; intros _ Hne; contradiction.
Qed.

Lemma onSelected_map_throws (selected : list string) st e :
  map_ selected (processFile getRC) start = (st, Throw e) ->
  onSelected selected start = (st, Throw e).
Proof. intros Hmap. unfold onSelected. unfold bind at 1. now rewrite Hmap. Qed.

(** The run of [extract] over readable files, the progress display being
    available. *)
Lemma extract_run_readable arr selected :
  exclude arr = Resolved selected ->
  Forall readable selected ->
  progress_available getRC = true ->
  extract arr = Resolved (map resultOf selected)
  /\ failed arr = filter unparsable selected
  /\ ((2 <= verbosity getRC)%Z -> failed arr <> [] ->
      exists before, printed arr = before ++ map ConsoleLog (failed arr))
  /\ (verbosity getRC = 1%Z -> failed arr <> [] ->
      exists before,
        printed arr
        = before ++ [ConsoleLog (show_nat (List.length (failed arr))
                                   +++ " files were unparsable")]).
Proof.
  intros Hsel Hall Hterm.
  destruct (mapFrom_readable selected 0 start Hterm Hall) as (st & Hmap & Hbad).
  destruct (onSelected_after_map selected st _ Hmap)
    as (st' & Hrun & Hbad' & Hout & Hcount).
  unfold extract, failed, printed, extract_run, then_.
  rewrite Hsel, Hrun; simpl. rewrite Hbad'.
  split; [reflexivity|]. split; [exact Hbad|].
  rewrite Hbad in Hout, Hcount |- *. split; assumption.
Qed.

(** What a resolved run of [extract] has done. *)
Lemma extract_resolved arr selected result :
  exclude arr = Resolved selected ->
  extract arr = Resolved result ->
  result = map resultOf selected
  /\ failed arr = filter unparsable selected
  /\ Forall readable selected
  /\ (selected <> [] -> progress_available getRC = true).
Proof.
  intros Hsel Hres. unfold extract, failed, extract_run, then_ in *.
  rewrite Hsel in *.
  destruct (map_ selected (processFile getRC) start) as [st [mapped|e]] eqn:Hmap.
  - destruct (onSelected_after_map selected st _ Hmap) as (st' & Hrun & Hbad' & _).
    rewrite Hrun in *. simpl in Hres. injection Hres as <-. simpl.
    destruct (mapFrom_returned _ _ _ _ _ Hmap) as (-> & Hbad & Hall & Hterm).
    rewrite Hbad'. repeat split; assumption.
  - rewrite (onSelected_map_throws _ _ _ Hmap) in Hres. discriminate.
Qed.

End PipelineFacts.

(* ------------------------------------------------------------------ *)
(** * The claims *)

Section Claims.

Context `{Collaborators}.

Lemma parse_throw_unparsable file e :
  parse_completion (parse (textOf file)) = Throw e ->
  unparsable file = true /\ tagsOf (textOf file) = [].
Proof.
  intros Hp. unfold unparsable, throwsOn, tagsOf.
  now rewrite (acornParse_throw _ _ [] Hp).
Qed.

(** Among selected files, the first one whose read throws. *)
Lemma first_unreadable (selected : list string) file e :
  In file selected ->
  readFileSync (file_path getRC file) = Throw e ->
  exists before f after e',
    selected = before ++ f :: after
    /\ Forall readable before
    /\ readFileSync (file_path getRC f) = Throw e'.
Proof.
  induction selected as [|g l IH]; intros Hin Hread; [destruct Hin|].
  destruct (readFileSync (file_path getRC g)) as [text|e'] eqn:Hg.
  - destruct Hin as [-> | Hin]; [congruence|].
    destruct (IH Hin Hread) as (before & f & after & e' & -> & Hall & Hf).
    exists (g :: before), f, after, e'. split; [reflexivity|].
    split; [|exact Hf]. constructor; [|exact Hall]. now exists text.
  - exists [], g, l, e'. auto.
Qed.

(** C1 (amended).  When the Selector resolves with readable files and the
    progress display is available (verbosity below 2, or standard output is
    a terminal), [extract] resolves with the ordered sequence of FileResult,
    one per selected path, and with nothing else.  The paths on which
    [acornParse] threw are kept in the local array [badFiles]: at verbosity 2
    and above they are the last lines printed, at verbosity 1 their number
    is the last line printed. *)
Theorem extract_resolves_with_file_results arr selected :
  exclude arr = Resolved selected ->
  Forall readable selected ->
  progress_available getRC = true ->
  extract arr = Resolved (map resultOf selected)
  /\ failed arr = filter unparsable selected
  /\ ((2 <= verbosity getRC)%Z -> failed arr <> [] ->
      exists before, printed arr = before ++ map ConsoleLog (failed arr))
  /\ (verbosity getRC = 1%Z -> failed arr <> [] ->
      exists before,
        printed arr
        = before ++ [ConsoleLog (show_nat (List.length (failed arr))
                                   +++ " files were unparsable")]).
Proof. apply extract_run_readable. Qed.

(** C2.  The resolved output has as many FileResults as the Selector
    yielded files: the file at each index produces the FileResult at that
    index, whether or not its parse fails.  Over readable files, the
    progress display being available, the run does resolve. *)
Theorem one_result_per_selected_file arr selected :
  exclude arr = Resolved selected ->
  (forall result,
     extract arr = Resolved result ->
     List.length result = List.length selected
     /\ forall i file, nth_error selected i = Some file ->
          exists r, nth_error result i = Some r /\ file_name r = file)
  /\ (Forall readable selected ->
      progress_available getRC = true ->
      exists result, extract arr = Resolved result).
Proof.
  intros Hsel. split.
  - intros result Hres.
    destruct (extract_resolved arr selected result Hsel Hres) as (-> & _).
    split; [apply length_map|].
    intros i file Hi. exists (resultOf file). split; [|reflexivity].
    now apply map_nth_error.
  - intros Hall Hterm.
    destruct (extract_run_readable arr selected Hsel Hall Hterm) as (Hres & _).
    eauto.
Qed.

(** C3.  A selected file whose text the parser refuses is recovered
    locally.  The exception is caught in the callback, which pushes the path
    on the failure list whatever the terminal is and then returns the
    file's FileResult, unless the progress display is asked of a stream
    that is not a terminal, as for any other file.  In the resolved value
    every file keeps the FileResult of its own text, and the results of the
    other files are those of a run without the bad file.  Over readable
    files, the progress display being available, the run does resolve. *)
Theorem parse_failure_is_local arr before file after e :
  exclude arr = Resolved (before ++ file :: after) ->
  readable file ->
  parse_completion (parse (textOf file)) = Throw e ->
  (forall fileCount st,
     badFiles (fst (processFile getRC file fileCount st)) = badFiles st ++ [file]
     /\ (snd (processFile getRC file fileCount st) = Normal (resultOf file)
         \/ (progress_available getRC = false
             /\ snd (processFile getRC file fileCount st)
                = Throw (TypeError "process.stdout.clearLine is not a function"))))
  /\ (forall result,
        extract arr = Resolved result ->
        In file (failed arr)
        /\ result = map resultOf before ++ resultOf file :: map resultOf after
        /\ snd (onSelected (before ++ after) start)
           = Normal (map resultOf before ++ map resultOf after))
  /\ (Forall readable (before ++ file :: after) ->
      progress_available getRC = true ->
      exists result, extract arr = Resolved result).
Proof.
  intros Hsel Hr Hp.
  destruct (parse_throw_unparsable file e Hp) as [Hun _].
  split; [|split].
  - intros fileCount st. unfold unparsable in Hun.
    destruct (progress_available getRC) eqn:Hterm.
    + destruct (processFile_readable getRC file fileCount _ st Hterm
                  (readable_textOf _ Hr)) as (st' & -> & Hbad).
      simpl. rewrite Hbad, Hun. split; [reflexivity | now left].
    + destruct (processFile_no_progress getRC file fileCount _ st Hterm
                  (readable_textOf _ Hr)) as (st' & -> & Hbad).
      simpl. rewrite Hbad, Hun. split; [reflexivity | now right].
  - intros result Hres.
    destruct (extract_resolved arr _ result Hsel Hres) as (-> & Hbad & Hall & Hterm).
    split; [|split].
    + rewrite Hbad. apply filter_In. split; [|exact Hun].
      apply in_or_app. right. now left.
    + now rewrite map_app.
    + assert (Hall' : Forall readable (before ++ after)).
      { apply Forall_app in Hall. destruct Hall as [Hb Ha].
        apply Forall_app. split; [exact Hb | now inversion Ha]. }
      assert (Hok : progress_available getRC = true).
      { apply Hterm. now destruct before. }
      destruct (mapFrom_readable _ 0 start Hok Hall') as (st & Hmap & _).
      destruct (onSelected_after_map _ st _ Hmap) as (st' & Hrun & _).
      rewrite Hrun, map_app. reflexivity.
  - intros Hall Hterm.
    destruct (extract_run_readable arr _ Hsel Hall Hterm) as (Hres & _). eauto.
Qed.

(** C4 (amended).  A selected file whose text the parser refuses is
    recorded and not partially analysed: [acornParse] leaves [tagContent] as
    it was, whatever comments the parser had read before the error, and in
    the resolved value the FileResult of the file has empty content.  Over
    readable files, the progress display being available, the run does
    resolve. *)
Theorem parse_failure_leaves_content_empty arr selected file e :
  exclude arr = Resolved selected ->
  In file selected ->
  parse_completion (parse (textOf file)) = Throw e ->
  (forall tagContent, acornParse (textOf file) tagContent = (tagContent, Throw e))
  /\ (forall result,
        extract arr = Resolved result ->
        In file (failed arr)
        /\ In {| content := []; file_name := file |} result
        /\ forall r, In r result -> file_name r = file -> content r = [])
  /\ (Forall readable selected ->
      progress_available getRC = true ->
      exists result, extract arr = Resolved result).
Proof.
  intros Hsel Hin Hp.
  destruct (parse_throw_unparsable file e Hp) as [Hun Hnil].
  split; [|split].
  - intros tagContent. now apply acornParse_throw.
  - intros result Hres.
    destruct (extract_resolved arr _ result Hsel Hres) as (-> & Hbad & _).
    split; [|split].
    + rewrite Hbad. apply filter_In. now split.
    + apply in_map_iff. exists file. split; [|exact Hin].
      unfold resultOf. now rewrite Hnil.
    + intros r Hr Hname. apply in_map_iff in Hr.
      destruct Hr as (f & <- & _). simpl in Hname. subst f. exact Hnil.
  - intros Hall Hterm.
    destruct (extract_run_readable arr _ Hsel Hall Hterm) as (Hres & _). eauto.
Qed.

(** C5 (amended).  In a tree whose offsets follow the source text and in
    which no JSX node spans the end of the comment, the binder takes for a
    comment the first node, in walk order, that starts at or after the
    comment's end offset; its start is the least such start, and what is
    pushed is decided by its kind.  Where no node starts at or after that
    offset the comment adds nothing to [tagContent] and the call returns. *)
Theorem binder_takes_nearest_following_node tree c tagContent :
  well_nested tree = true ->
  walkable tree (pos c) = true ->
  ((exists m, In m (nodes tree) /\ pos c <= node_start m) ->
   exists n,
     findNodeAfter tree (pos c) = Normal (Some n)
     /\ find (fun m => pos c <=? node_start m) (nodes tree) = Some n
     /\ In n (nodes tree)
     /\ pos c <= node_start n
     /\ (forall m, In m (nodes tree) -> pos c <= node_start m ->
           node_start n <= node_start m)
     /\ bindComment tree c tagContent
        = match node_shape n with
          | MethodDefinition key =>
              (tagContent ++ [ {| comment := raw_comment c; name := name_of key |} ],
               Normal tt)
          | VariableDeclaration ds =>
              (tagContent
                 ++ map (fun d => {| comment := raw_comment c;
                                     name := name_of (id d) |}) ds,
               Normal tt)
          | FunctionDeclaration (Some i) =>
              (tagContent ++ [ {| comment := raw_comment c; name := name_of i |} ],
               Normal tt)
          | FunctionDeclaration None =>
              (tagContent, Throw (TypeError "Cannot read property 'name' of null"))
          | OtherNode _ => (tagContent, Normal tt)
          end)
  /\ ((forall m, In m (nodes tree) -> node_start m < pos c) ->
      findNodeAfter tree (pos c) = Normal None
      /\ bindComment tree c tagContent = (tagContent, Normal tt)).
Proof.
  intros Hwf Hwalk.
  pose proof (findNodeAfter_walk_order tree (pos c) Hwf Hwalk) as Hfind.
  split.
  - intros (m & Hm & Hpos).
    destruct (find (fun m => pos c <=? node_start m) (nodes tree)) as [n|] eqn:Hfirst.
    + exists n. destruct (findNodeAfter_sound _ _ _ Hfind) as [Hin Hle].
      split; [exact Hfind|]. split; [reflexivity|].
      split; [exact Hin|]. split; [exact Hle|].
      split; [exact (findNodeAfter_least _ _ _ Hwf Hfind)|].
      unfold bindComment. rewrite Hfind.
      destruct (node_shape n) as [key | ds | [i|] | ty]; try reflexivity.
      apply forEach_push.
    + pose proof (findNodeAfter_none _ _ Hwf Hfind m Hm). lia.
  - intros Hnone.
    assert (Hf : findNodeAfter tree (pos c) = Normal None).
    { rewrite Hfind. f_equal. apply find_all_false. intros m Hm.
      apply Nat.leb_gt. now apply Hnone. }
    split; [exact Hf|]. unfold bindComment. now rewrite Hf.
Qed.

Lemma bindComment_declaration tree c n ds (tagContent : list TaggedComment) :
  findNodeAfter tree (pos c) = Normal (Some n) ->
  node_shape n = VariableDeclaration ds ->
  bindComment tree c tagContent
  = (tagContent
       ++ map (fun d => {| comment := raw_comment c; name := name_of (id d) |}) ds,
     Normal tt).
Proof.
  intros Hf Hsh. unfold bindComment. rewrite Hf, Hsh. apply forEach_push.
Qed.


(** C7.  The text of the scenario, once acorn has read it, yields exactly
    the tag named add with the text acorn passed to [onComment]; [arr] holds
    the block comments whose first character is a star, with the text of the
    call, and a following FunctionDeclaration gives the name of its
    identifier. *)
Theorem add_scenario_and_doc_comments :
  (parse Demo.text_add = Demo.run_add ->
   acornParse Demo.text_add []
   = ([ {| comment := "* Adds two numbers "; name := JString "add" |} ],
      Normal tt))
  /\ (forall run,
        collected run = map raw_of (filter is_doc (onComment_calls run)))
  /\ (forall call,
        is_doc call = true
        <-> c_block call = true /\ String.get 0 (c_text call) = Some "*"%char)
  /\ (forall tree c n x tagContent,
        findNodeAfter tree (pos c) = Normal (Some n) ->
        node_shape n = FunctionDeclaration (Some (Identifier x)) ->
        bindComment tree c tagContent
        = (tagContent ++ [ {| comment := raw_comment c; name := JString x |} ],
           Normal tt)).
Proof.
  split; [|split; [|split]].
  - intros Hp. unfold acornParse. rewrite Hp. reflexivity.
  - apply collected_filter.
  - intros call. unfold is_doc, first_is_star. rewrite andb_true_iff.
    destruct (String.get 0 (c_text call)) as [ch|].
    + rewrite Ascii.eqb_eq. split; intros [Hb Hc]; (split; [exact Hb|]);
        congruence.
    + split; intros [_ Hc]; discriminate.
  - intros tree c n x tagContent Hf Hsh. unfold bindComment.
    now rewrite Hf, Hsh.
Qed.

(** C8.  In the resolved value FileResults come in the order of the
    Selector's paths, each holding the tags of its own text (over readable
    files, the progress display being available, the run does resolve); the
    tags of a text are the tags of its doc comments concatenated in the order
    the parser read the comments (of all of them when [acornParse] returns,
    of the first few when it throws); and the tags of one
    VariableDeclaration follow its declarators. *)
Theorem results_keep_selection_and_source_order :
  (forall arr selected,
     exclude arr = Resolved selected ->
     (forall result,
        extract arr = Resolved result ->
        map file_name result = selected
        /\ map content result = map (fun f => tagsOf (textOf f)) selected)
     /\ (Forall readable selected ->
         progress_available getRC = true ->
         exists result, extract arr = Resolved result))
  /\ (forall text tree,
        parse_completion (parse text) = Normal tree ->
        let docs := map raw_of (filter is_doc (onComment_calls (parse text))) in
        exists k,
          tagsOf text = flat_map (tagsFor tree) (firstn k docs)
          /\ (throwsOn text = false -> firstn k docs = docs))
  /\ (forall tree c n ds,
        findNodeAfter tree (pos c) = Normal (Some n) ->
        node_shape n = VariableDeclaration ds ->
        tagsFor tree c
        = map (fun d => {| comment := raw_comment c; name := name_of (id d) |}) ds).
Proof.
  split; [|split].
  - intros arr selected Hsel. split.
    + intros result Hres.
      destruct (extract_resolved arr selected result Hsel Hres) as (-> & _).
      rewrite !map_map. simpl. split; [apply map_id | reflexivity].
    + intros Hall Hterm.
      destruct (extract_run_readable arr selected Hsel Hall Hterm) as (Hres & _).
      eauto.
  - intros text tree Hp docs. unfold tagsOf, throwsOn.
    rewrite (acornParse_normal _ _ [] Hp), collected_filter. fold docs.
    destruct (forEach_bind_prefix tree docs []) as (k & Hk & Hall).
    exists k. split; [exact Hk|].
    destruct (snd (forEach docs (bindComment tree) [])) as [u|e] eqn:Hs;
      [intros _; exact (Hall u eq_refl) | discriminate].
  - intros tree c n ds Hf Hsh. unfold tagsFor.
    now rewrite (bindComment_declaration _ _ _ _ [] Hf Hsh).
Qed.


(** C10.  When the read of a selected file throws, the exception leaves
    the callback: the promise of [extract] is rejected and resolves with no
    report.  Where the progress display is available the error is that of
    the first file that cannot be read. *)
Theorem unreadable_file_rejects_extraction arr selected file e :
  exclude arr = Resolved selected ->
  In file selected ->
  readFileSync (file_path getRC file) = Throw e ->
  (exists e', extract arr = Rejected e')
  /\ (forall result, extract arr <> Resolved result)
  /\ (progress_available getRC = true ->
      exists before f after e',
        selected = before ++ f :: after
        /\ Forall readable before
        /\ readFileSync (file_path getRC f) = Throw e'
        /\ extract arr = Rejected e').
Proof.
  intros Hsel Hin Hread.
  destruct (mapFrom_throws selected file e 0 start Hin Hread) as (st & e1 & Hmap).
  assert (Hrej : extract arr = Rejected e1).
  { unfold extract, extract_run, then_. rewrite Hsel.
    now rewrite (onSelected_map_throws _ st e1 Hmap). }
  split; [eauto|]. split.
  - intros result. rewrite Hrej. discriminate.
  - intros Hterm.
    destruct (first_unreadable selected file e Hin Hread)
      as (before & f & after & e' & Heq & Hall & Hf).
    exists before, f, after, e'. repeat split; try assumption.
    destruct (mapFrom_unreadable before after f e' 0 start Hterm Hall Hf)
      as (st2 & Hmap2).
    unfold extract, extract_run, then_. rewrite Hsel, Heq.
    now rewrite (onSelected_map_throws _ st2 e' Hmap2).
Qed.

End Claims.

(* ------------------------------------------------------------------ *)
(** * The claims on the demo platform *)

(** C1 as stated fails.  Two runs select the same three files and resolve
    with the same value; in one of them [plain.js] does not parse and is on
    the failure list, in the other the list is empty.  No function of the
    resolved value gives the failure list. *)
Lemma resolved_value_lacks_failure_list :
  ~ exists failure_set : promise (list FileResult) -> list string,
      failure_set (@extract Demo.quiet_ok ["/work"])
        = @failed Demo.quiet_ok ["/work"]
      /\ failure_set (@extract Demo.quiet_broken ["/work"])
        = @failed Demo.quiet_broken ["/work"].
Proof.
  intros (failure_set & Hok & Hbroken).
  assert (Hsame : @extract Demo.quiet_ok ["/work"]
                  = @extract Demo.quiet_broken ["/work"]) by reflexivity.
  rewrite Hsame, Hbroken in Hok. vm_compute in Hok. discriminate.
Qed.

(** C4 as stated fails for a failure while binding.  In [default.js] the
    comment before [function a] is bound, then the comment before the
    anonymous default export makes [node.id.name] throw: the file is on the
    failure list and its FileResult keeps the first tag. *)
Lemma binding_failure_keeps_earlier_tags :
  @failed Demo.with_default ["/work"] = ["default.js"]
  /\ @extract Demo.with_default ["/work"]
     = Resolved
         [ {| content := [ {| comment := "* A "; name := JString "a" |} ];
              file_name := "default.js" |} ]
  /\ ~ (forall r,
          In r [ {| content := [ {| comment := "* A "; name := JString "a" |} ];
                    file_name := "default.js" |} ] ->
          In (file_name r) (@failed Demo.with_default ["/work"]) ->
          content r = []).
Proof.
  split; [reflexivity|]. split; [reflexivity|].
  intros Hclaim.
  specialize (Hclaim _ (or_introl eq_refl) (or_introl eq_refl)).
  discriminate.
Qed.

(** C5 as stated fails.  In [do { /** d */ var x = 1; } while (y);] the
    walker visits the test of the loop before its body: the node taken for
    the comment, which ends at 13, is the test at 34, although the
    declaration of [x] starts at 14, and the comment gets no tag.  In
    [const a = <p>{/** c */}</p>;] the walk to the comment goes below a JSX
    element, for which the walker has no visitor: the binder throws. *)
Lemma binder_misses_nearest_node :
  (findNodeAfter Demo.tree_dowhile 13 = Normal (Some (Demo.leaf "Identifier" 34 35))
   /\ In Demo.declaration_x (nodes Demo.tree_dowhile)
   /\ 13 <= node_start Demo.declaration_x
   /\ node_start Demo.declaration_x < node_start (Demo.leaf "Identifier" 34 35)
   /\ bindComment Demo.tree_dowhile {| raw_comment := "* d "; pos := 13 |} []
      = ([], Normal tt)
   /\ ~ (forall n,
           findNodeAfter Demo.tree_dowhile 13 = Normal (Some n) ->
           forall m, In m (nodes Demo.tree_dowhile) -> 13 <= node_start m ->
             node_start n <= node_start m))
  /\ bindComment Demo.tree_jsx {| raw_comment := "* c "; pos := 22 |} []
     = ([], Throw (TypeError "base[type] is not a function")).
Proof.
  assert (Hin : In Demo.declaration_x (nodes Demo.tree_dowhile)).
  { simpl. do 4 right. left. reflexivity. }
  split; [|reflexivity].
  split; [reflexivity|]. split; [exact Hin|].
  split; [simpl; lia|]. split; [simpl; lia|]. split; [reflexivity|].
  intros Hclaim.
  specialize (Hclaim _ eq_refl Demo.declaration_x Hin). simpl in Hclaim. lia.
Qed.

Ltac all_readable :=
  repeat constructor; eexists; reflexivity.

Lemma extract_resolves_with_file_results_witness :
  @extract Demo.loud_broken ["/work"]
    = Resolved (map (@resultOf Demo.loud_broken) ["add.js"; "plain.js"; "flags.js"])
  /\ @failed Demo.loud_broken ["/work"]
    = filter (@unparsable Demo.loud_broken) ["add.js"; "plain.js"; "flags.js"]
  /\ ((2 <= verbosity (@getRC Demo.loud_broken))%Z ->
      @failed Demo.loud_broken ["/work"] <> [] ->
      exists before,
        @printed Demo.loud_broken ["/work"]
        = before ++ map ConsoleLog (@failed Demo.loud_broken ["/work"]))
  /\ (verbosity (@getRC Demo.loud_broken) = 1%Z ->
      @failed Demo.loud_broken ["/work"] <> [] ->
      exists before,
        @printed Demo.loud_broken ["/work"]
        = before
            ++ [ConsoleLog
                  (show_nat (List.length (@failed Demo.loud_broken ["/work"]))
                     +++ " files were unparsable")]).
Proof.
  apply (@extract_resolves_with_file_results Demo.loud_broken ["/work"]
           ["add.js"; "plain.js"; "flags.js"]);
    [reflexivity | all_readable | reflexivity].
Defined.

Lemma one_result_per_selected_file_witness :
  exists result,
    @extract Demo.piped_quiet ["/work"] = Resolved result
    /\ List.length result = 3.
Proof.
  destruct (@one_result_per_selected_file Demo.piped_quiet ["/work"]
              ["add.js"; "plain.js"; "flags.js"] eq_refl) as [Hcount Hresolves].
  destruct Hresolves as (result & Hres); [all_readable | reflexivity |].
  exists result. split; [exact Hres|]. exact (proj1 (Hcount result Hres)).
Defined.

Lemma parse_failure_is_local_witness :
  exists result,
    @extract Demo.loud_broken ["/work"] = Resolved result
    /\ In "plain.js" (@failed Demo.loud_broken ["/work"])
    /\ result
       = map (@resultOf Demo.loud_broken) ["add.js"]
           ++ @resultOf Demo.loud_broken "plain.js"
           :: map (@resultOf Demo.loud_broken) ["flags.js"]
    /\ snd (@onSelected Demo.loud_broken (["add.js"] ++ ["flags.js"]) start)
       = Normal (map (@resultOf Demo.loud_broken) ["add.js"]
                   ++ map (@resultOf Demo.loud_broken) ["flags.js"]).
Proof.
  destruct (@parse_failure_is_local Demo.loud_broken ["/work"]
              ["add.js"] "plain.js" ["flags.js"]
              (SyntaxError "Unexpected token (2:14)") eq_refl)
    as (_ & Hlocal & Hresolves);
    [eexists; reflexivity | reflexivity |].
  destruct Hresolves as (result & Hres); [all_readable | reflexivity |].
  exists result. split; [exact Hres | exact (Hlocal result Hres)].
Defined.

Lemma parse_failure_leaves_content_empty_witness :
  (forall tagContent,
     @acornParse Demo.quiet_broken (@textOf Demo.quiet_broken "plain.js") tagContent
     = (tagContent, Throw (SyntaxError "Unexpected token (2:14)")))
  /\ exists result,
       @extract Demo.quiet_broken ["/work"] = Resolved result
       /\ In "plain.js" (@failed Demo.quiet_broken ["/work"])
       /\ In {| content := []; file_name := "plain.js" |} result
       /\ forall r, In r result -> file_name r = "plain.js" -> content r = [].
Proof.
  destruct (@parse_failure_leaves_content_empty Demo.quiet_broken ["/work"]
              ["add.js"; "plain.js"; "flags.js"] "plain.js"
              (SyntaxError "Unexpected token (2:14)") eq_refl)
    as (Hframe & Hempty & Hresolves);
    [right; left; reflexivity | reflexivity |].
  split; [exact Hframe|].
  destruct Hresolves as (result & Hres); [all_readable | reflexivity |].
  exists result. split; [exact Hres | exact (Hempty result Hres)].
Defined.

Lemma binder_takes_nearest_following_node_witness :
  (exists n,
     findNodeAfter Demo.tree_flags 18 = Normal (Some n)
     /\ node_start n = 19
     /\ List.length
          (fst (bindComment Demo.tree_flags
                  {| raw_comment := "* Config flag "; pos := 18 |} [])) = 2)
  /\ bindComment Demo.tree_trailing {| raw_comment := "* tail "; pos := 22 |} []
     = ([], Normal tt).
Proof.
  split.
  - destruct (binder_takes_nearest_following_node Demo.tree_flags
                {| raw_comment := "* Config flag "; pos := 18 |} []
                eq_refl eq_refl)
      as [Hsome _].
    destruct Hsome as (n & Hf & _ & _ & _ & _ & Hbind).
    + exists (Node (OtherNode "Literal") 49 54 []). split.
      * simpl. repeat (try (left; reflexivity); right).
      * simpl. repeat constructor.
    + exists n. split; [exact Hf|]. simpl in Hf.
      injection Hf as <-. split; reflexivity.
  - apply (binder_takes_nearest_following_node Demo.tree_trailing
             {| raw_comment := "* tail "; pos := 22 |} [] eq_refl eq_refl).
    intros m Hm. simpl in Hm.
    repeat (destruct Hm as [<- | Hm]; [simpl; repeat constructor|]).
    destruct Hm.
Defined.


Lemma add_scenario_and_doc_comments_witness :
  @acornParse Demo.quiet_ok Demo.text_add []
  = ([ {| comment := "* Adds two numbers "; name := JString "add" |} ],
     Normal tt).
Proof.
  apply (proj1 (@add_scenario_and_doc_comments Demo.quiet_ok)). reflexivity.
Defined.

Lemma results_keep_selection_and_source_order_witness :
  (exists result,
     @extract Demo.quiet_ok ["/work"] = Resolved result
     /\ map file_name result = ["add.js"; "plain.js"; "flags.js"]
     /\ map content result
        = map (fun f => @tagsOf Demo.quiet_ok (@textOf Demo.quiet_ok f))
            ["add.js"; "plain.js"; "flags.js"])
  /\ (exists k,
        @tagsOf Demo.with_default Demo.text_default
        = flat_map (tagsFor Demo.tree_default)
            (firstn k [ {| raw_comment := "* A "; pos := 8 |};
                        {| raw_comment := "* B "; pos := 48 |} ])).
Proof.
  destruct (@results_keep_selection_and_source_order Demo.quiet_ok)
    as (Hfiles & _ & _).
  destruct (@results_keep_selection_and_source_order Demo.with_default)
    as (_ & Htags & _).
  split.
  - destruct (Hfiles ["/work"] ["add.js"; "plain.js"; "flags.js"] eq_refl)
      as [Horder Hresolves].
    destruct Hresolves as (result & Hres); [all_readable | reflexivity |].
    exists result. split; [exact Hres | exact (Horder result Hres)].
  - destruct (Htags Demo.text_default Demo.tree_default eq_refl) as (k & Hk & _).
    exists k. exact Hk.
Defined.


Lemma unreadable_file_rejects_extraction_witness :
  (exists e', @extract Demo.with_missing ["/work"] = Rejected e')
  /\ (forall result, @extract Demo.with_missing ["/work"] <> Resolved result)
  /\ (@progress_available Demo.with_missing (@getRC Demo.with_missing) = true ->
      exists before f after e',
        ["add.js"; "gone.js"; "flags.js"] = before ++ f :: after
        /\ Forall (@readable Demo.with_missing) before
        /\ @readFileSync Demo.with_missing
             (@file_path Demo.with_missing (@getRC Demo.with_missing) f)
           = Throw e'
        /\ @extract Demo.with_missing ["/work"] = Rejected e').
Proof.
  apply (@unreadable_file_rejects_extraction Demo.with_missing ["/work"]
           ["add.js"; "gone.js"; "flags.js"] "gone.js"
           (SystemError "ENOENT: no such file or directory"));
    [reflexivity | right; left; reflexivity | reflexivity].
Defined.

(* ------------------------------------------------------------------ *)
(** * Further properties of [extract.js] *)

Lemma concat_snoc (sep : string) (ls : list string) (x : string) :
  ls <> [] ->
  String.concat sep (ls ++ [x]) = String.concat sep ls +++ sep +++ x.
Proof.
  induction ls as [|a ls IH]; intros Hne; [congruence|].
  destruct ls as [|b ls].
  - reflexivity.
  - change (String.concat sep ((a :: b :: ls) ++ [x]))
      with (a +++ sep +++ String.concat sep ((b :: ls) ++ [x])).
    rewrite IH by congruence.
    change (String.concat sep (a :: b :: ls))
      with (a +++ sep +++ String.concat sep (b :: ls)).
    now rewrite !append_assoc.
Qed.

(** X6.  In a well nested tree in which no JSX node spans [pos],
    [findNodeAfter] returns the first node, in the order of the walk, that
    starts at or after [pos]: of several nodes starting at the same offset
    it is the outermost. *)
Theorem findNodeAfter_first_in_walk_order tree pos :
  well_nested tree = true ->
  walkable tree pos = true ->
  findNodeAfter tree pos
  = Normal (find (fun m => pos <=? node_start m) (nodes tree)).
Proof. apply findNodeAfter_walk_order. Qed.

Lemma findNodeAfter_first_in_walk_order_witness :
  findNodeAfter Demo.tree_default 48
  = Normal (find (fun m => 48 <=? node_start m) (nodes Demo.tree_default)).
Proof.
  apply (findNodeAfter_first_in_walk_order Demo.tree_default 48); reflexivity.
Defined.

Section ExtractFacts.

Context `{Collaborators}.

Lemma fold_add_rule arr (ls : list string) :
  ls <> [] ->
  fold_left add_rule arr (String.concat nl ls)
  = String.concat nl
      (ls ++ flat_map
               (fun p =>
                  let relPath := path_relative ROOT p in
                  ["!" +++ relPath +++ "/**/*.js"; "!" +++ relPath +++ "/**/*.jsx"]
                    ++ (if is_source_ext (path_extname p)
                        then ["!" +++ relPath] else []))
               arr).
Proof.
  revert ls. induction arr as [|p arr IH]; intros ls Hne.
  - simpl. now rewrite app_nil_r.
  - cbn [fold_left flat_map]. cbv zeta.
    assert (Hne1 : ls ++ ["!" +++ path_relative ROOT p +++ "/**/*.js"] <> [])
      by (now destruct ls).
    assert (Hne2 : (ls ++ ["!" +++ path_relative ROOT p +++ "/**/*.js"])
                     ++ ["!" +++ path_relative ROOT p +++ "/**/*.jsx"] <> [])
      by (now destruct ls).
    unfold add_rule. destruct (is_source_ext (path_extname p)).
    + replace (String.concat nl ls +++ nl +++ "!" +++ path_relative ROOT p
                 +++ "/**/*.js" +++ nl +++ "!" +++ path_relative ROOT p
                 +++ "/**/*.jsx" +++ nl +++ "!" +++ path_relative ROOT p)
        with (String.concat nl
                (((ls ++ ["!" +++ path_relative ROOT p +++ "/**/*.js"])
                    ++ ["!" +++ path_relative ROOT p +++ "/**/*.jsx"])
                   ++ ["!" +++ path_relative ROOT p])).
      * rewrite IH by (now destruct ls). f_equal.
        rewrite <- !app_assoc. reflexivity.
      * rewrite !concat_snoc by assumption. now rewrite !append_assoc.
    + replace (String.concat nl ls +++ nl +++ "!" +++ path_relative ROOT p
                 +++ "/**/*.js" +++ nl +++ "!" +++ path_relative ROOT p
                 +++ "/**/*.jsx")
        with (String.concat nl
                ((ls ++ ["!" +++ path_relative ROOT p +++ "/**/*.js"])
                   ++ ["!" +++ path_relative ROOT p +++ "/**/*.jsx"])).
      * rewrite IH by assumption. f_equal.
        rewrite <- !app_assoc. reflexivity.
      * rewrite !concat_snoc by assumption. now rewrite !append_assoc.
Qed.

(** X1.  The rule [exclude] hands to the walker, read line by line, is the
    line [*] and then, for each include path in order, a line with an
    exclamation mark, the path relative to the root and [/**/*.js], the same
    with [/**/*.jsx], and, if the path ends in [.js] or [.jsx], a third with
    the relative path alone. *)
Theorem exclude_rule_is_star_then_each_path arr :
  exclude arr
  = walker ROOT
      (String.concat nl
         ("*"
          :: flat_map
               (fun p =>
                  let relPath := path_relative ROOT p in
                  ["!" +++ relPath +++ "/**/*.js"; "!" +++ relPath +++ "/**/*.jsx"]
                    ++ (if is_source_ext (path_extname p)
                        then ["!" +++ relPath] else []))
               arr)).
Proof.
  unfold exclude. cbv zeta. f_equal.
  apply (fold_add_rule arr ["*"]). discriminate.
Qed.

(** X2.  [acornParse] only appends to [tagContent]: what was there stays
    in front, and the tags added and the way the call ends do not depend on
    it. *)
Theorem acornParse_only_appends text (tagContent : list TaggedComment) :
  acornParse text tagContent
  = (tagContent ++ tagsOf text, snd (acornParse text [])).
Proof.
  unfold tagsOf, acornParse.
  destruct (parse_completion (parse text)) as [tree|e].
  - apply forEach_bind_frame.
  - unfold throw; simpl. now rewrite app_nil_r.
Qed.

(** X3.  When the node after a doc comment is a function declaration
    without identifier, [acornParse] throws a TypeError there: [tagContent]
    keeps the tags of the doc comments before it and the later comments are
    not bound. *)
Theorem anonymous_function_stops_binding
  text tree before c after n (tagContent : list TaggedComment) :
  parse_completion (parse text) = Normal tree ->
  collected (parse text) = before ++ c :: after ->
  Forall (fun c' => snd (bindComment tree c' []) = Normal tt) before ->
  findNodeAfter tree (pos c) = Normal (Some n) ->
  node_shape n = FunctionDeclaration None ->
  acornParse text tagContent
  = (tagContent ++ flat_map (tagsFor tree) before,
     Throw (TypeError "Cannot read property 'name' of null")).
Proof.
  intros Hp Harr Hbefore Hf Hsh.
  rewrite (acornParse_normal _ _ _ Hp), Harr, forEach_app.
  rewrite (forEach_bind_normal _ _ _ Hbefore). simpl.
  unfold bind, bindComment at 1. now rewrite Hf, Hsh.
Qed.

Lemma tagsFor_origin tree c t :
  In t (tagsFor tree c) ->
  comment t = raw_comment c
  /\ exists n, findNodeAfter tree (pos c) = Normal (Some n) /\ pos c <= node_start n.
Proof.
  unfold tagsFor, bindComment.
  destruct (findNodeAfter tree (pos c)) as [[n|]|err] eqn:Hf;
    [|intros []|intros []].
  destruct (findNodeAfter_sound _ _ _ Hf) as [_ Hle].
  intros Hin. split; [|now exists n].
  destruct (node_shape n) as [key | ds | [i|] | ty]; simpl in Hin.
  - destruct Hin as [<- | []]. reflexivity.
  - rewrite forEach_push in Hin. simpl in Hin. apply in_map_iff in Hin.
    destruct Hin as (d & <- & _). reflexivity.
  - destruct Hin as [<- | []]. reflexivity.
  - destruct Hin.
  - destruct Hin.
Qed.

(** X4.  Every TaggedComment of a file comes from a doc comment: its text
    is the text of a block comment starting with a star that the parser
    reported, and a node of the tree starts at or after the end of that
    comment. *)
Theorem tags_come_from_doc_comments text tree t :
  parse_completion (parse text) = Normal tree ->
  In t (tagsOf text) ->
  exists call n,
    In call (onComment_calls (parse text))
    /\ c_block call = true
    /\ first_is_star (c_text call) = true
    /\ comment t = c_text call
    /\ findNodeAfter tree (c_end call) = Normal (Some n)
    /\ c_end call <= node_start n.
Proof.
  intros Hp Hin. unfold tagsOf in Hin.
  rewrite (acornParse_normal _ _ [] Hp), collected_filter in Hin.
  destruct (forEach_bind_prefix tree
              (map raw_of (filter is_doc (onComment_calls (parse text)))) [])
    as (k & Hk & _).
  rewrite Hk in Hin. simpl in Hin. apply in_flat_map in Hin.
  destruct Hin as (c & Hc & Ht).
  apply in_firstn, in_map_iff in Hc. destruct Hc as (call & <- & Hcall).
  apply filter_In in Hcall. destruct Hcall as [Hcall Hdoc].
  apply andb_true_iff in Hdoc. destruct Hdoc as [Hb Hstar].
  destruct (tagsFor_origin _ _ _ Ht) as (Hcom & n & Hf & Hle).
  exists call, n. repeat split; assumption.
Qed.

Lemma errorHandler_quiet file gutenrc e st :
  (verbosity gutenrc < 3)%Z ->
  errorHandler file gutenrc e st
  = ({| badFiles := badFiles st ++ [file]; stdout := stdout st |}, Normal tt).
Proof.
  intros Hv. unfold errorHandler, bind, modify.
  assert (H4 : (verbosity gutenrc >=? 4)%Z = false).
  { rewrite Z.geb_leb. apply Z.leb_gt. lia. }
  assert (H3 : (verbosity gutenrc >=? 3)%Z = false).
  { rewrite Z.geb_leb. apply Z.leb_gt. lia. }
  now rewrite H4, H3.
Qed.

Lemma processFile_quiet gutenrc file fileCount text st :
  (verbosity gutenrc < 2)%Z ->
  readFileSync (file_path gutenrc file) = Normal text ->
  processFile gutenrc file fileCount st
  = ({| badFiles := badFiles st ++ (if throwsOn text then [file] else []);
        stdout := stdout st |},
     Normal {| content := tagsOf text; file_name := file |}).
Proof.
  intros Hv Hread. unfold processFile, call, tagsOf, throwsOn.
  unfold bind at 1. rewrite Hread.
  assert (H2 : (verbosity gutenrc >=? 2)%Z = false).
  { rewrite Z.geb_leb. apply Z.leb_gt. lia. }
  rewrite H2.
  destruct (acornParse text []) as [tagContent [[]|e]]; cbn [fst snd].
  - unfold bind, ret. destruct st; simpl. now rewrite app_nil_r.
  - unfold bind at 1. rewrite errorHandler_quiet by lia.
    unfold bind, ret. reflexivity.
Qed.

Lemma mapFrom_quiet (l : list string) i st :
  (verbosity getRC < 2)%Z ->
  Forall readable l ->
  mapFrom i l (processFile getRC) st
  = ({| badFiles := badFiles st ++ filter unparsable l; stdout := stdout st |},
     Normal (map resultOf l)).
Proof.
  intros Hv Hall. revert i st.
  induction Hall as [|file l Hr _ IH]; intros i st; simpl.
  - unfold ret. destruct st; simpl. now rewrite app_nil_r.
  - unfold bind at 1.
    rewrite (processFile_quiet getRC file i _ st Hv (readable_textOf _ Hr)).
    unfold bind at 1. rewrite IH. cbn [badFiles stdout]. unfold ret.
    unfold unparsable at 2, resultOf at 2.
    destruct (throwsOn (textOf file)); now rewrite <- app_assoc.
Qed.

(** X5.  Below verbosity 2 a run over readable files prints no progress
    and no file name: the terminal receives the line with the number of
    files and, at verbosity 1 when some file failed, the number of failed
    files; at verbosity 0 a failure leaves no trace on the terminal. *)
Theorem low_verbosity_prints_only_totals arr selected :
  exclude arr = Resolved selected ->
  Forall readable selected ->
  (verbosity getRC < 2)%Z ->
  printed arr
  = ConsoleLog ("Files Processed: " +++ show_nat (List.length selected))
    :: (if (1 <=? verbosity getRC)%Z && negb (List.length (failed arr) =? 0)
        then [ConsoleLog (show_nat (List.length (failed arr))
                            +++ " files were unparsable")]
        else []).
Proof.
  intros Hsel Hall Hv.
  assert (Hfailed : failed arr = filter unparsable selected).
  { unfold failed, extract_run, then_. rewrite Hsel. unfold onSelected.
    cbv beta iota zeta delta [bind map_].
    rewrite (mapFrom_quiet selected 0 start Hv Hall), emit_run.
    cbv beta iota zeta delta [gets ret]. cbn [badFiles stdout start app].
    assert (H2 : (verbosity getRC >=? 2)%Z = false).
    { rewrite Z.geb_leb. apply Z.leb_gt. lia. }
    rewrite H2, andb_false_r.
    destruct (negb (List.length (filter unparsable selected) =? 0)
              && (verbosity getRC >=? 1)%Z);
      rewrite ?emit_run; reflexivity. }
  rewrite Hfailed. unfold printed, extract_run, then_. rewrite Hsel.
  unfold onSelected. cbv beta iota zeta delta [bind map_].
  rewrite (mapFrom_quiet selected 0 start Hv Hall), emit_run.
  cbv beta iota zeta delta [gets ret]. cbn [badFiles stdout start app].
  assert (H2 : (verbosity getRC >=? 2)%Z = false).
  { rewrite Z.geb_leb. apply Z.leb_gt. lia. }
  rewrite H2, andb_false_r, Z.geb_leb, andb_comm.
  destruct ((1 <=? verbosity getRC)%Z
            && negb (List.length (filter unparsable selected) =? 0));
    rewrite ?emit_run; reflexivity.
Qed.

(** X23.  At verbosity 2 and above, with a standard output that is not a
    terminal, a run that selects a readable file first does not resolve: the
    callback throws at [process.stdout.clearLine], after the [try]
    statement, and the promise is rejected with that TypeError; the failure
    list holds that file if it did not parse. *)
Theorem progress_without_terminal_rejects arr file rest :
  exclude arr = Resolved (file :: rest) ->
  readable file ->
  (2 <= verbosity getRC)%Z ->
  stdout_isTTY = false ->
  extract arr = Rejected (TypeError "process.stdout.clearLine is not a function")
  /\ failed arr = (if unparsable file then [file] else []).
Proof.
  intros Hsel Hr Hv Htty.
  assert (Hterm : progress_available getRC = false).
  { unfold progress_available. rewrite Htty, orb_false_r.
    apply negb_false_iff. rewrite Z.geb_leb. now apply Z.leb_le. }
  destruct (processFile_no_progress getRC file 0 _ start Hterm (readable_textOf _ Hr))
    as (st & Hrun & Hbad).
  assert (Hmap : map_ (file :: rest) (processFile getRC) start
                 = (st, Throw (TypeError "process.stdout.clearLine is not a function"))).
  { unfold map_. cbn [mapFrom]. unfold bind at 1. now rewrite Hrun. }
  unfold extract, failed, extract_run, then_.
  rewrite Hsel, (onSelected_map_throws _ _ _ Hmap). simpl.
  split; [reflexivity | exact Hbad].
Qed.

End ExtractFacts.

Lemma anonymous_function_stops_binding_witness :
  @acornParse Demo.with_default Demo.text_default []
  = ([] ++ flat_map (tagsFor Demo.tree_default)
             [ {| raw_comment := "* A "; pos := 8 |} ],
     Throw (TypeError "Cannot read property 'name' of null")).
Proof.
  apply (@anonymous_function_stops_binding Demo.with_default Demo.text_default
           Demo.tree_default [ {| raw_comment := "* A "; pos := 8 |} ]
           {| raw_comment := "* B "; pos := 48 |} []
           (Node (FunctionDeclaration None) 49 63 [Demo.leaf "BlockStatement" 61 63]));
    try reflexivity.
  repeat constructor.
Defined.

Lemma tags_come_from_doc_comments_witness :
  exists call n,
    In call (onComment_calls (@parse Demo.quiet_ok Demo.text_flags))
    /\ c_block call = true
    /\ first_is_star (c_text call) = true
    /\ "* Config flag " = c_text call
    /\ findNodeAfter Demo.tree_flags (c_end call) = Normal (Some n)
    /\ c_end call <= node_start n.
Proof.
  apply (@tags_come_from_doc_comments Demo.quiet_ok Demo.text_flags Demo.tree_flags
           {| comment := "* Config flag "; name := JString "VERBOSE" |});
    [reflexivity | right; left; reflexivity].
Defined.

Lemma low_verbosity_prints_only_totals_witness :
  @printed Demo.quiet_broken ["/work"] = [ConsoleLog "Files Processed: 3"].
Proof.
  apply (@low_verbosity_prints_only_totals Demo.quiet_broken ["/work"]
           ["add.js"; "plain.js"; "flags.js"]);
    [reflexivity | all_readable | reflexivity].
Defined.

Lemma progress_without_terminal_rejects_witness :
  @extract Demo.piped_broken ["/work"]
  = Rejected (TypeError "process.stdout.clearLine is not a function")
  /\ @failed Demo.piped_broken ["/work"] = [].
Proof.
  apply (@progress_without_terminal_rejects Demo.piped_broken ["/work"]
           "add.js" ["plain.js"; "flags.js"]);
    [reflexivity | eexists; reflexivity | simpl; lia | reflexivity].
Defined.

(* ------------------------------------------------------------------ *)
(** * Properties of [GeneratedFunc.jsx] *)

Module RenderFacts.

Import Render.

Lemma renderParam_typed all tag index ty :
  tag_type tag = Some ty ->
  renderParam all tag index tt
  = (tt, Normal (if List.length all =? index + 1
                 then shown tag +++ " " else shown tag)).
Proof.
  intros Hty. unfold renderParam, shown, bind, ret. rewrite Hty.
  destruct (String.eqb (type ty) "OptionalType");
    destruct (List.length all =? index + 1); simpl;
    rewrite ?append_nil_r; reflexivity.
Qed.

Lemma renderParam_untyped all tag index :
  tag_type tag = None ->
  renderParam all tag index tt
  = (tt, Throw (TypeError "Cannot read property 'type' of null")).
Proof. intros Hty. unfold renderParam, bind, throw. now rewrite Hty. Qed.

(** The rendered parameters, joined with commas, are the parameters as
    shown, joined with commas, and one blank. *)
Lemma mapFrom_renderParam_typed (pre l : list Tag) :
  forallb typed l = true ->
  exists rendered,
    mapFrom (List.length pre) l (renderParam (pre ++ l)) tt = (tt, Normal rendered)
    /\ List.length rendered = List.length l
    /\ (l <> [] ->
        String.concat "," rendered = String.concat "," (map shown l) +++ " ").
Proof.
  revert pre. induction l as [|x l IH]; intros pre Hall.
  - exists []. simpl. repeat split. congruence.
  - simpl in Hall. apply andb_true_iff in Hall. destruct Hall as [Hx Hl].
    unfold typed in Hx. destruct (tag_type x) as [ty|] eqn:Hty; [|discriminate].
    destruct (IH (pre ++ [x]) Hl) as (rest & Hrest & Hlen & Hjoin).
    rewrite <- app_assoc, length_app in Hrest. simpl in Hrest.
    cbn [mapFrom]. unfold bind at 1. rewrite (renderParam_typed _ _ _ ty Hty).
    unfold bind at 1.
    replace (S (List.length pre)) with (List.length pre + 1) by lia.
    rewrite Hrest. unfold ret.
    rewrite length_app. cbn [List.length].
    destruct l as [|y l]; cbn [List.length].
    + destruct rest; [|discriminate].
      replace (List.length pre + 1 =? List.length pre + 1) with true
        by (symmetry; apply Nat.eqb_refl).
      eexists; split; [reflexivity|]. split; [reflexivity|]. intros _. reflexivity.
    + replace (List.length pre + S (S (List.length l)) =? List.length pre + 1)
        with false by (symmetry; apply Nat.eqb_neq; simpl; lia).
      eexists; split; [reflexivity|]. split; [simpl; now rewrite Hlen|].
      intros _. destruct rest as [|r rest]; [discriminate|].
      assert (Hne : y :: l <> []) by congruence.
      specialize (Hjoin Hne).
      change (String.concat "," (shown x :: r :: rest))
        with (shown x +++ "," +++ String.concat "," (r :: rest)).
      rewrite Hjoin.
      change (String.concat "," (map shown (x :: y :: l)))
        with (shown x +++ "," +++ String.concat "," (map shown (y :: l))).
      now rewrite !append_assoc.
Qed.

Lemma mapFrom_renderParam_untyped (pre l : list Tag) :
  forallb typed l = false ->
  mapFrom (List.length pre) l (renderParam (pre ++ l)) tt
  = (tt, Throw (TypeError "Cannot read property 'type' of null")).
Proof.
  revert pre. induction l as [|x l IH]; intros pre Hall; [discriminate|].
  cbn [mapFrom]. unfold bind at 1.
  destruct (tag_type x) as [ty|] eqn:Hty.
  - rewrite (renderParam_typed _ _ _ ty Hty). unfold bind at 1.
    simpl in Hall. unfold typed at 1 in Hall. rewrite Hty in Hall. simpl in Hall.
    specialize (IH (pre ++ [x]) Hall).
    rewrite <- app_assoc, length_app in IH. simpl in IH.
    replace (S (List.length pre)) with (List.length pre + 1) by lia.
    now rewrite IH.
  - now rewrite (renderParam_untyped _ _ _ Hty).
Qed.

(** X7.  When every tag titled [param] has a type, [BodyFunctionDesc]
    returns six blanks, the name and, between parentheses, the parameters in
    tag order separated by commas, each after a blank, the optional ones in
    brackets, with one blank before the closing parenthesis; without
    parameters the parentheses are empty.  Tags with another title do not
    show. *)
Theorem signature_lists_the_params fc :
  forallb typed (filter is_param (tags fc)) = true ->
  BodyFunctionDesc fc
  = Normal
      ((("      " +++ template (fc_name fc) +++ "(")
          +++ match filter is_param (tags fc) with
              | [] => EmptyString
              | ps => String.concat "," (map shown ps) +++ " "
              end)
         +++ ")").
Proof.
  intros Hall. unfold BodyFunctionDesc, map_.
  destruct (mapFrom_renderParam_typed [] _ Hall) as (rendered & Hrun & Hlen & Hjoin).
  simpl in Hrun. rewrite Hrun. cbn [snd].
  destruct (filter is_param (tags fc)) as [|p ps] eqn:Hps.
  - destruct rendered; [reflexivity | discriminate].
  - rewrite Hjoin by congruence. reflexivity.
Qed.

(** X8.  [BodyFunctionDesc] throws a TypeError exactly when some tag titled
    [param] has no type; a tag with another title may lack one. *)
Theorem untyped_param_throws fc :
  BodyFunctionDesc fc = Throw (TypeError "Cannot read property 'type' of null")
  <-> exists tag,
        In tag (tags fc) /\ title tag = "param" /\ tag_type tag = None.
Proof.
  unfold BodyFunctionDesc, map_.
  destruct (forallb typed (filter is_param (tags fc))) eqn:Hall.
  - destruct (mapFrom_renderParam_typed [] _ Hall) as (rendered & Hrun & _).
    simpl in Hrun. rewrite Hrun. cbn [snd]. split; [discriminate|].
    intros (tag & Hin & Htitle & Hty).
    rewrite forallb_forall in Hall.
    assert (Hp : In tag (filter is_param (tags fc))).
    { apply filter_In. split; [exact Hin|]. unfold is_param.
      now apply String.eqb_eq. }
    specialize (Hall tag Hp). unfold typed in Hall. now rewrite Hty in Hall.
  - pose proof (mapFrom_renderParam_untyped [] _ Hall) as Hrun.
    simpl in Hrun. rewrite Hrun. cbn [snd]. split; [|reflexivity].
    intros _.
    assert (Hex : exists tag, In tag (filter is_param (tags fc)) /\ typed tag = false).
    { clear Hrun. induction (filter is_param (tags fc)) as [|x l IH];
        [discriminate|].
      simpl in Hall. apply andb_false_iff in Hall. destruct Hall as [Hx | Hl].
      - exists x. split; [now left | exact Hx].
      - destruct (IH Hl) as (tag & Hin & Ht). exists tag. split; [now right | exact Ht]. }
    destruct Hex as (tag & Hin & Ht). apply filter_In in Hin.
    destruct Hin as [Hin Hp]. exists tag. split; [exact Hin|].
    split; [now apply String.eqb_eq|].
    unfold typed in Ht. now destruct (tag_type tag).
Qed.

Lemma signature_lists_the_params_witness :
  BodyFunctionDesc demo_comment = Normal "      add( a, [b] )".
Proof.
  apply (signature_lists_the_params demo_comment). reflexivity.
Defined.

End RenderFacts.

Lemma untyped_param_throws_witness :
  Render.BodyFunctionDesc Render.demo_untyped
  = Throw (TypeError "Cannot read property 'type' of null").
Proof.
  apply (proj2 (RenderFacts.untyped_param_throws Render.demo_untyped)).
  exists {| Render.title := "param"; Render.tag_type := None;
            Render.tag_name := JString "b" |}.
  split; [right; left; reflexivity | split; reflexivity].
Defined.

(* ------------------------------------------------------------------ *)
(** * Properties of [utils.js] *)

Module UtilsFacts.

Import Utils.

(** ** Objects *)

Section Objects.

Context {V : Type}.

Implicit Types (o : list (string * V)) (k : string) (v : V).

Lemma get_set_eq k v o : get k (set k v o) = Some v.
Proof.
  induction o as [|[k' v'] o IH]; simpl.
  - now rewrite String.eqb_refl.
  - destruct (String.eqb k k') eqn:Hk; simpl; rewrite ?String.eqb_refl, ?Hk; auto.
Qed.

Lemma get_set_neq k k' v o : k' <> k -> get k' (set k v o) = get k' o.
Proof.
  intros Hne. induction o as [|[k0 v0] o IH]; simpl.
  - apply String.eqb_neq in Hne. now rewrite Hne.
  - destruct (String.eqb k k0) eqn:Hk; simpl.
    + apply String.eqb_eq in Hk. subst k0.
      apply String.eqb_neq in Hne. now rewrite Hne.
    + destruct (String.eqb k' k0); [reflexivity | exact IH].
Qed.

Lemma get_delete_eq k o : get k (delete k o) = None.
Proof.
  induction o as [|[k' v'] o IH]; simpl; [reflexivity|].
  destruct (String.eqb k k') eqn:Hk; simpl; [exact IH|]. now rewrite Hk.
Qed.

Lemma get_delete_neq k k' o : k' <> k -> get k' (delete k o) = get k' o.
Proof.
  intros Hne. induction o as [|[k0 v0] o IH]; simpl; [reflexivity|].
  destruct (String.eqb k k0) eqn:Hk; simpl.
  - apply String.eqb_eq in Hk. subst k0.
    apply String.eqb_neq in Hne. now rewrite Hne.
  - destruct (String.eqb k' k0); [reflexivity | exact IH].
Qed.

Lemma get_none_iff k o : get k o = None <-> ~ In k (keys o).
Proof.
  induction o as [|[k' v'] o IH]; simpl; [tauto|].
  destruct (String.eqb k k') eqn:Hk.
  - apply String.eqb_eq in Hk. subst. split; [discriminate | tauto].
  - apply String.eqb_neq in Hk. rewrite IH. split.
    + intros Hn [Heq | Hin]; [congruence | tauto].
    + tauto.
Qed.

Lemma keys_set k v o :
  keys (set k v o)
  = match get k o with Some _ => keys o | None => keys o ++ [k] end.
Proof.
  induction o as [|[k' v'] o IH]; simpl; [reflexivity|].
  destruct (String.eqb k k') eqn:Hk; simpl.
  - apply String.eqb_eq in Hk. now subst.
  - rewrite IH. now destruct (get k o).
Qed.

Lemma NoDup_keys_set k v o : NoDup (keys o) -> NoDup (keys (set k v o)).
Proof.
  intros Hnd. rewrite keys_set. destruct (get k o) eqn:Hg; [exact Hnd|].
  apply get_none_iff in Hg.
  apply NoDup_app; [exact Hnd | repeat constructor; intros [] | ].
  intros x Hx [<- | []]. contradiction.
Qed.

Lemma keys_delete k o : keys (delete k o) = filter (fun k' => negb (String.eqb k k')) (keys o).
Proof.
  induction o as [|[k' v'] o IH]; simpl; [reflexivity|].
  destruct (String.eqb k k'); simpl; now rewrite IH.
Qed.

Lemma NoDup_keys_delete k o : NoDup (keys o) -> NoDup (keys (delete k o)).
Proof. intros Hnd. rewrite keys_delete. now apply NoDup_filter. Qed.

End Objects.

Lemma assign_cons (t : object) kv (s : object) :
  assign t (kv :: s) = assign (set (fst kv) (snd kv) t) s.
Proof. reflexivity. Qed.

(** A property of the merged object is the source's if the source has it,
    the target's otherwise. *)
Lemma get_assign (t s : object) k :
  NoDup (keys s) ->
  get k (assign t s) = match get k s with Some v => Some v | None => get k t end.
Proof.
  revert t. induction s as [|[k1 v1] s IH]; intros t Hnd; [reflexivity|].
  inversion Hnd as [|? ? Hk1 Hnd']; subst.
  rewrite assign_cons, (IH _ Hnd'). cbn [fst snd get].
  destruct (String.eqb k k1) eqn:Hk.
  - apply String.eqb_eq in Hk. subst k1.
    apply get_none_iff in Hk1. rewrite Hk1. apply get_set_eq.
  - apply String.eqb_neq in Hk. rewrite (get_set_neq _ _ _ _ Hk). reflexivity.
Qed.

Lemma NoDup_keys_assign (t s : object) :
  NoDup (keys t) -> NoDup (keys (assign t s)).
Proof.
  revert t. induction s as [|[k v] s IH]; intros t Hnd; [exact Hnd|].
  rewrite assign_cons. apply IH. now apply NoDup_keys_set.
Qed.

Section WithHost.

Context `{Host}.

Ltac run :=
  cbv beta iota zeta delta
    [ubind uret uthrow native try_catch existsSync readFileSync writeFileSync
     refreshFile].

(** ** [findValidBackupName] *)

Lemma countUp_first_free (taken : nat -> bool) n :
  taken n = false ->
  forall fuel start,
    start <= n -> n - start <= fuel ->
    exists k,
      countUp fuel taken start = Some k
      /\ start <= k <= n
      /\ taken k = false
      /\ forall j, start <= j < k -> taken j = true.
Proof.
  intros Hfree fuel. induction fuel as [|fuel IH]; intros start Hle Hfuel.
  - assert (start = n) by lia. subst start.
    exists n. simpl. rewrite Hfree. repeat split; try lia.
  - destruct (taken start) eqn:Hs.
    + assert (start <> n) by congruence.
      destruct (IH (S start)) as (k & Hk & Hrange & Hfreek & Hbelow); try lia.
      exists k. simpl. rewrite Hs. repeat split; try assumption; try lia.
      intros j Hj. destruct (Nat.eq_dec j start) as [-> | Hne]; [exact Hs|].
      apply Hbelow. lia.
    + exists start. simpl. rewrite Hs. repeat split; try assumption; lia.
Qed.

(** X9.  Given a numbered backup name that is free and fuel for that many
    rounds, [findValidBackupName] returns a name that does not exist in
    [location]: the plain [.backup] name when that is free, otherwise the
    one with the least free number. *)
Theorem findValidBackupName_is_unused fuel location baseName st n :
  let backupExt := extname baseName in
  let backupName := basename baseName backupExt +++ ".backup" in
  n <= fuel ->
  exists_at st (((location +++ backupName) +++ show_nat n) +++ backupExt) = false ->
  exists r,
    findValidBackupName fuel location baseName st = Some r
    /\ exists_at st (location +++ r) = false
    /\ (exists_at st ((location +++ backupName) +++ backupExt) = false ->
        r = backupName +++ backupExt)
    /\ (exists_at st ((location +++ backupName) +++ backupExt) = true ->
        exists k,
          k <= n
          /\ r = (backupName +++ show_nat k) +++ backupExt
          /\ forall j, j < k ->
               exists_at st
                 (((location +++ backupName) +++ show_nat j) +++ backupExt) = true).
Proof.
  intros backupExt backupName Hfuel Hfree. unfold findValidBackupName.
  fold backupExt. fold backupName.
  destruct (exists_at st ((location +++ backupName) +++ backupExt)) eqn:Hplain.
  - destruct (countUp_first_free
                (fun filecount =>
                   exists_at st
                     (((location +++ backupName) +++ show_nat filecount)
                        +++ backupExt)) n Hfree fuel 0)
      as (k & Hk & Hrange & Hfreek & Hbelow); try lia.
    rewrite Hk. eexists; split; [reflexivity|]. split; [|split].
    + now rewrite <- !append_assoc.
    + discriminate.
    + intros _. exists k. split; [lia|]. split; [reflexivity|].
      intros j Hj. apply Hbelow. lia.
  - eexists; split; [reflexivity|]. split; [|split].
    + now rewrite <- append_assoc.
    + reflexivity.
    + discriminate.
Qed.

(** ** [fillBlanksWithDefaults] *)

Lemma fillBlanks_run path assigned st text defaults user :
  get path (disk st) = Some text ->
  JSON_parse text = Normal defaults ->
  JSON_parse assigned = Normal user ->
  fillBlanksWithDefaults path assigned st = (st, Returned (assign defaults user)).
Proof.
  intros Hread Hd Hu. unfold fillBlanksWithDefaults. run.
  rewrite Hread, Hd, Hu. reflexivity.
Qed.

(** X10.  When the template and the user's settings parse,
    [fillBlanksWithDefaults] returns an object in which every setting has the
    user's value if the user gives one and the default otherwise, so that a
    key of the template is never missing; the files stay as they are. *)
Theorem fillBlanks_keeps_defaults_available path assigned st text defaults user :
  get path (disk st) = Some text ->
  JSON_parse text = Normal defaults ->
  JSON_parse assigned = Normal user ->
  NoDup (keys user) ->
  exists merged,
    fillBlanksWithDefaults path assigned st = (st, Returned merged)
    /\ (forall k, get k merged
                  = match get k user with Some v => Some v | None => get k defaults end)
    /\ (forall k, In k (keys defaults) -> In k (keys merged)).
Proof.
  intros Hread Hd Hu Hnd. exists (assign defaults user).
  split; [now apply (fillBlanks_run _ _ _ text)|].
  split; [intros k; now apply get_assign|].
  intros k Hin.
  destruct (in_dec string_dec k (keys (assign defaults user))) as [Hyes | Hno];
    [exact Hyes|].
  apply get_none_iff in Hno. rewrite (get_assign _ _ _ Hnd) in Hno.
  destruct (get k user); [discriminate|].
  apply get_none_iff in Hno. contradiction.
Qed.

(** ** [getRC] *)

Lemma climb_passes (k : nat) :
  forall fuel p,
    (forall j, j < k ->
       dirname (Nat.iter j dirname p) <> Nat.iter j dirname p
       /\ exists names,
            readdirSync (Nat.iter j dirname p) = Normal names
            /\ lists_rc names = false) ->
    k <= fuel ->
    climb fuel p = climb (fuel - k) (Nat.iter k dirname p).
Proof.
  induction k as [|k IH]; intros fuel p Hpass Hfuel.
  - now rewrite Nat.sub_0_r.
  - destruct fuel as [|fuel]; [lia|].
    destruct (Hpass 0) as (Hroot & names & Hnames & Hlists); [lia|].
    simpl in Hroot, Hnames. cbn [climb].
    apply String.eqb_neq in Hroot. rewrite String.eqb_sym in Hroot.
    rewrite Hroot, Hnames, Hlists. cbn [negb].
    rewrite (IH fuel (dirname p)); [|intros j Hj|lia].
    + rewrite Nat.iter_succ_r. reflexivity.
    + specialize (Hpass (S j) ltac:(lia)). rewrite Nat.iter_succ_r in Hpass.
      exact Hpass.
Qed.

(** X11.  The search of [getRC] stops at the nearest directory, from the
    working directory upwards, that lists [.gutenrc.json], provided the
    directories below it can be listed and the fuel covers the climb. *)
Theorem climb_stops_at_nearest_settings fuel k names :
  (forall j, j < k ->
     dirname (Nat.iter j dirname realpath_cwd) <> Nat.iter j dirname realpath_cwd
     /\ exists names',
          readdirSync (Nat.iter j dirname realpath_cwd) = Normal names'
          /\ lists_rc names' = false) ->
  dirname (Nat.iter k dirname realpath_cwd) <> Nat.iter k dirname realpath_cwd ->
  readdirSync (Nat.iter k dirname realpath_cwd) = Normal names ->
  In ".gutenrc.json" names ->
  k < fuel ->
  climb fuel realpath_cwd = Some (Returned (true, Nat.iter k dirname realpath_cwd)).
Proof.
  intros Hpass Hroot Hnames Hin Hfuel.
  rewrite (climb_passes k fuel _ Hpass) by lia.
  destruct (fuel - k) as [|rest] eqn:Hrest; [lia|].
  cbn [climb]. apply String.eqb_neq in Hroot. rewrite String.eqb_sym in Hroot.
  rewrite Hroot, Hnames.
  assert (Hlists : lists_rc names = true).
  { unfold lists_rc.
    assert (Hf : In ".gutenrc.json"
                   (filter (fun file => String.eqb file ".gutenrc.json") names)).
    { apply filter_In. split; [exact Hin | reflexivity]. }
    destruct (filter (fun file => String.eqb file ".gutenrc.json") names);
      [destruct Hf | reflexivity]. }
  now rewrite Hlists.
Qed.

(** X12.  The root directory is never searched: when the climb reaches a
    directory that is its own parent without having met [.gutenrc.json],
    [getRC] throws the not-initialized error, whatever that directory
    holds, and leaves the files alone. *)
Theorem getRC_never_searches_the_root fuel k st :
  (forall j, j < k ->
     dirname (Nat.iter j dirname realpath_cwd) <> Nat.iter j dirname realpath_cwd
     /\ exists names,
          readdirSync (Nat.iter j dirname realpath_cwd) = Normal names
          /\ lists_rc names = false) ->
  dirname (Nat.iter k dirname realpath_cwd) = Nat.iter k dirname realpath_cwd ->
  k <= fuel ->
  getRC fuel st = Some (st, Threw (Error not_initialized)).
Proof.
  intros Hpass Hroot Hfuel. unfold getRC.
  rewrite (climb_passes k fuel _ Hpass Hfuel).
  assert (Hclimb : climb (fuel - k) (Nat.iter k dirname realpath_cwd)
                   = Some (Returned (false, Nat.iter k dirname realpath_cwd))).
  { destruct (fuel - k); cbn [climb]; rewrite Hroot, String.eqb_refl; reflexivity. }
  rewrite Hclimb. reflexivity.
Qed.

(** X13.  In the object [getRC] returns, a setting has the value of the
    project's [.gutenrc.json] if that file gives one, else the value of the
    template; [absPath] is the directory found, with a slash, only when
    neither file has an [absPath] of its own. *)
Theorem getRC_settings_precedence fuel st targetPath text user dir ttext defaults :
  climb fuel realpath_cwd = Some (Returned (true, targetPath)) ->
  get (targetPath +++ "/.gutenrc.json") (disk st) = Some text ->
  JSON_parse text = Normal user ->
  get "apiDir" user = Some dir ->
  get (dirname module_dirname +++ "/client/dist/.gutenRCTemplate.json") (disk st)
    = Some ttext ->
  JSON_parse ttext = Normal defaults ->
  NoDup (keys user) ->
  NoDup (keys defaults) ->
  exists rc,
    getRC fuel st = Some (st, Returned (Some rc))
    /\ forall k,
         get k rc
         = match get k user with
           | Some v => Some v
           | None =>
               match get k defaults with
               | Some v => Some v
               | None =>
                   if String.eqb k "absPath"
                   then Some (JsonString (targetPath +++ "/"))
                   else None
               end
           end.
Proof.
  intros Hclimb Hread Huser Hdir Htread Hdefaults Hndu Hndd.
  exists (assign [("absPath", JsonString (targetPath +++ "/"))]
            (assign defaults user)).
  split.
  - unfold getRC. rewrite Hclimb. unfold afterClimb.
    unfold ubind at 1, readFileSync at 1. rewrite Hread, Huser, Hdir.
    unfold ubind at 1.
    rewrite (fillBlanks_run _ _ _ ttext defaults user Htread Hdefaults Huser).
    reflexivity.
  - intros k. rewrite get_assign by now apply NoDup_keys_assign.
    rewrite (get_assign _ _ _ Hndu).
    destruct (get k user); [reflexivity|].
    destruct (get k defaults); reflexivity.
Qed.

Lemma fillBlanks_reads_only path assigned st st' r :
  fillBlanksWithDefaults path assigned st = (st', r) -> st' = st.
Proof.
  unfold fillBlanksWithDefaults. run.
  destruct (get path (disk st)); [|now intros [= <- _]].
  destruct (JSON_parse s); [|now intros [= <- _]].
  destruct (JSON_parse assigned); now intros [= <- _].
Qed.

(** X14.  [getRC] never writes: the files are the same after the call.  It
    returns [false] exactly when it has called [refreshFile], once; in every
    other case no prompt is opened. *)
Theorem getRC_never_writes fuel st st' r :
  getRC fuel st = Some (st', r) ->
  disk st' = disk st
  /\ ((r = Returned None
       /\ exists call, refreshing st' = refreshing st ++ [call])
      \/ (r <> Returned None /\ refreshing st' = refreshing st)).
Proof.
  unfold getRC.
  destruct (climb fuel realpath_cwd) as [[[rcpath targetPath]|t]|]; [| |discriminate].
  2:{ intros [= <- <-]. split; [reflexivity|]. right. split; [discriminate | reflexivity]. }
  unfold afterClimb. destruct rcpath.
  2:{ intros [= <- <-]. split; [reflexivity|]. right. split; [discriminate | reflexivity]. }
  unfold ubind at 1, readFileSync at 1.
  destruct (get (targetPath +++ "/.gutenrc.json") (disk st)) as [text|].
  2:{ intros [= <- <-]. split; [reflexivity|]. right. split; [discriminate | reflexivity]. }
  destruct (JSON_parse text) as [parsed|err].
  - destruct (get "apiDir" parsed) as [dir|].
    2:{ intros [= <- <-]. split; [reflexivity|]. right.
        split; [discriminate | reflexivity]. }
    unfold ubind at 1.
    destruct (fillBlanksWithDefaults
                (dirname module_dirname +++ "/client/dist/.gutenRCTemplate.json")
                text st) as [st1 [merged|t]] eqn:Hfill;
      apply fillBlanks_reads_only in Hfill; subst st1;
      intros [= <- <-]; (split; [reflexivity|]); right;
      (split; [discriminate | reflexivity]).
  - run. intros [= <- <-]. split; [reflexivity|]. left.
    split; [reflexivity|]. eexists. reflexivity.
Qed.

(** ** [setVerbosity] *)

(** X15.  [setVerbosity] accepts a level only if it is a finite number from
    0 to 5: for every other argument (a number outside the range, NaN, an
    infinity, a value that is not a number) it throws and writes nothing. *)
Theorem setVerbosity_rejects_other_levels level gutenrc globally st :
  (forall q, level = LevelNumber (Finite q) -> ~ (0 <= q /\ q <= 5)%Q) ->
  setVerbosity level gutenrc globally st
  = (st, Threw (Error "Verbosity level must be a number from 0 to 5")).
Proof.
  intros Hout. unfold setVerbosity.
  assert (Hcheck : is_number level && ge0 level && le5 level = false).
  { destruct level as [[q| | |]|ty]; try reflexivity. cbn [is_number ge0 le5 andb].
    destruct (Qle_bool 0 q) eqn:H0; [|reflexivity].
    destruct (Qle_bool q 5) eqn:H5; [|reflexivity].
    exfalso. apply (Hout q eq_refl). split; now apply Qle_bool_iff. }
  now rewrite Hcheck.
Qed.

Lemma level_in_range q :
  (0 <= q)%Q -> (q <= 5)%Q ->
  is_number (LevelNumber (Finite q)) && ge0 (LevelNumber (Finite q))
  && le5 (LevelNumber (Finite q)) = true.
Proof.
  intros H0 H5. cbn [is_number ge0 le5 andb].
  apply Qle_bool_iff in H0, H5. now rewrite H0, H5.
Qed.

(** X16.  With a level from 0 to 5 (fractions included), settings whose
    [absPath] is a string and no global update, [setVerbosity] rewrites the
    project's [.gutenrc.json] with [verbosity] set to the level and every
    other setting as it was parsed; no other file changes. *)
Theorem setVerbosity_updates_the_project_file q rc p text o st :
  (0 <= q)%Q -> (q <= 5)%Q ->
  get "absPath" rc = Some (JsonString p) ->
  get (p +++ ".gutenrc.json") (disk st) = Some text ->
  JSON_parse text = Normal o ->
  exists written st',
    setVerbosity (LevelNumber (Finite q)) (Some rc) false st = (st', Returned tt)
    /\ get (p +++ ".gutenrc.json") (disk st') = Some (JSON_stringify written)
    /\ (forall p', p' <> p +++ ".gutenrc.json" ->
          get p' (disk st') = get p' (disk st))
    /\ get "verbosity" written = Some (JsonNumber q)
    /\ (forall k, k <> "verbosity" -> get k written = get k o).
Proof.
  intros H0 H5 Habs Hread Hparse.
  exists (set "verbosity" (JsonNumber q) o). eexists.
  unfold setVerbosity. rewrite (level_in_range q H0 H5).
  unfold absPath_concat. rewrite Habs. run. rewrite Hread, Hparse.
  split; [reflexivity|]. cbn [disk json_of_level].
  split; [apply get_set_eq|]. split; [intros p' Hp'; now apply get_set_neq|].
  split; [apply get_set_eq | intros k Hk; now apply get_set_neq].
Qed.


(** X18.  The two updates are not one step: when the project file has been
    rewritten and the template cannot be read, [setVerbosity] throws and the
    project file keeps its new level. *)
Theorem setVerbosity_keeps_local_update_on_global_failure q rc p text o st :
  (0 <= q)%Q -> (q <= 5)%Q ->
  get "absPath" rc = Some (JsonString p) ->
  get (p +++ ".gutenrc.json") (disk st) = Some text ->
  JSON_parse text = Normal o ->
  get pathToGlobal (disk st) = None ->
  exists st' e,
    setVerbosity (LevelNumber (Finite q)) (Some rc) true st = (st', Threw (Native e))
    /\ get (p +++ ".gutenrc.json") (disk st')
       = Some (JSON_stringify (set "verbosity" (JsonNumber q) o)).
Proof.
  intros H0 H5 Habs Hread Hparse Hglobal.
  assert (Hne : pathToGlobal <> p +++ ".gutenrc.json") by congruence.
  unfold setVerbosity. rewrite (level_in_range q H0 H5).
  unfold absPath_concat. rewrite Habs. run. rewrite Hread, Hparse.
  cbn [disk]. rewrite (get_set_neq _ _ _ _ Hne), Hglobal.
  eexists. eexists. split; [reflexivity|]. cbn [disk json_of_level].
  apply get_set_eq.
Qed.

(** ** [addIgnoreToLangSettings] *)


(** X20.  When [.vscode/] exists and [settings.json] parses, the file is
    rewritten with [files.associations] holding the [.gutenignore]
    association alone, whatever associations it held, and with every other
    setting as it was parsed. *)
Theorem addIgnore_replaces_file_associations root st text o :
  exists_at st (root +++ ".vscode/") = true ->
  get ((root +++ ".vscode/") +++ "settings.json") (disk st) = Some text ->
  JSON_parse text = Normal o ->
  exists written st',
    addIgnoreToLangSettings root st = (st', Returned tt)
    /\ get ((root +++ ".vscode/") +++ "settings.json") (disk st')
       = Some (JSON_stringify written)
    /\ get "files.associations" written
       = Some (JsonObject [ (".gutenignore", JsonString "ignore") ])
    /\ (forall k, k <> "files.associations" -> get k written = get k o).
Proof.
  intros Hdir Hread Hparse.
  exists (set "files.associations"
            (JsonObject [ (".gutenignore", JsonString "ignore") ]) o).
  eexists.
  assert (Hfile : exists_at st ((root +++ ".vscode/") +++ "settings.json") = true).
  { unfold exists_at, has_file. now rewrite Hread, orb_true_r. }
  unfold addIgnoreToLangSettings, readCurrentSettings. run.
  rewrite Hdir, Hfile, Hread, Hparse.
  split; [reflexivity|]. cbn [disk].
  split; [apply get_set_eq|].
  split; [apply get_set_eq | intros k Hk; now apply get_set_neq].
Qed.

(** X21.  Without a [.vscode/] directory, and also when [settings.json] is
    there and does not parse, [addIgnoreToLangSettings] changes nothing: a
    settings file it cannot read is never overwritten. *)
Theorem addIgnore_leaves_unreadable_settings root st :
  exists_at st (root +++ ".vscode/") = false
  \/ (exists text e,
        get ((root +++ ".vscode/") +++ "settings.json") (disk st) = Some text
        /\ JSON_parse text = Throw e) ->
  addIgnoreToLangSettings root st = (st, Returned tt).
Proof.
  unfold addIgnoreToLangSettings, readCurrentSettings. run.
  intros [Hdir | (text & e & Hread & Hparse)].
  - now rewrite Hdir.
  - assert (Hfile : exists_at st ((root +++ ".vscode/") +++ "settings.json") = true).
    { unfold exists_at, has_file. now rewrite Hread, orb_true_r. }
    destruct (exists_at st (root +++ ".vscode/")); [|reflexivity].
    now rewrite Hfile, Hread, Hparse.
Qed.

(** ** [setTheme] *)

(** X22.  [setTheme] rewrites the design settings module around the
    current settings overridden by the theme: a setting takes the theme's
    value where the theme has one, except [description], which keeps the
    value of the current settings; no other file changes. *)
Theorem setTheme_merges_theme_without_description
  gutenrc themeName st mtext d ttext t :
  let designPath := (absPath gutenrc +++ apiDir gutenrc) +++ "designSettings.js" in
  let themePath :=
    absPath gutenrc +++ (apiDir gutenrc +++ "Themes/" +++ themeName +++ ".json") in
  get designPath (disk st) = Some mtext ->
  evaluate mtext = Normal d ->
  get themePath (disk st) = Some ttext ->
  JSON_parse ttext = Normal t ->
  NoDup (keys t) ->
  exists written st',
    setTheme gutenrc themeName st = (st', Returned tt)
    /\ get designPath (disk st')
       = Some (addDesignSettingsTemplate (JSON_stringify written))
    /\ (forall p, p <> designPath -> get p (disk st') = get p (disk st))
    /\ get "description" written = get "description" d
    /\ (forall k, k <> "description" ->
          get k written
          = match get k t with Some v => Some v | None => get k d end).
Proof.
  intros designPath themePath Hmod Heval Hread Hparse Hnd.
  exists (assign d (delete "description" t)). eexists.
  unfold setTheme, require. fold designPath. fold themePath. run.
  rewrite Hmod, Heval, Hread, Hparse.
  split; [reflexivity|]. cbn [disk].
  split; [apply get_set_eq|]. split; [intros p Hp; now apply get_set_neq|].
  assert (Hnd' : NoDup (keys (delete "description" t)))
    by now apply NoDup_keys_delete.
  split.
  - rewrite (get_assign _ _ _ Hnd'), get_delete_eq. reflexivity.
  - intros k Hk. rewrite (get_assign _ _ _ Hnd'), (get_delete_neq _ _ _ Hk).
    reflexivity.
Qed.

End WithHost.

(** ** The properties on the demo host *)

Ltac distinct_keys :=
  repeat (constructor; [simpl; intuition discriminate|]); constructor.

Lemma findValidBackupName_is_unused_witness :
  exists r,
    @findValidBackupName (UtilsDemo.host "/work/site") 5 "/work/site/" "exam.js"
      UtilsDemo.state = Some r
    /\ @exists_at (UtilsDemo.host "/work/site") UtilsDemo.state ("/work/site/" +++ r)
       = false.
Proof.
  pose proof (@findValidBackupName_is_unused (UtilsDemo.host "/work/site") 5
                "/work/site/" "exam.js" UtilsDemo.state 1) as W.
  cbv zeta in W.
  destruct (W ltac:(lia) eq_refl) as (r & Hr & Hfree & _).
  exists r. split; assumption.
Defined.

Lemma fillBlanks_keeps_defaults_available_witness :
  exists merged,
    @fillBlanksWithDefaults (UtilsDemo.host "/work/site") UtilsDemo.template_path
      (UtilsDemo.stringify_object UtilsDemo.rc_user) UtilsDemo.state
    = (UtilsDemo.state, Returned merged)
    /\ get "sortBy" merged = Some (JsonString "name")
    /\ get "apiDir" merged = Some (JsonString "api/").
Proof.
  destruct (@fillBlanks_keeps_defaults_available (UtilsDemo.host "/work/site")
              UtilsDemo.template_path
              (UtilsDemo.stringify_object UtilsDemo.rc_user) UtilsDemo.state
              (UtilsDemo.stringify_object UtilsDemo.rc_template)
              UtilsDemo.rc_template UtilsDemo.rc_user
              eq_refl eq_refl eq_refl ltac:(distinct_keys))
    as (merged & Hrun & Hget & _).
  exists merged. split; [exact Hrun|]. split; rewrite Hget; reflexivity.
Defined.

Lemma climb_stops_at_nearest_settings_witness :
  @climb (UtilsDemo.host "/work/site/src") 5 "/work/site/src"
  = Some (Returned (true, Nat.iter 1 UtilsDemo.posix_dirname "/work/site/src")).
Proof.
  apply (@climb_stops_at_nearest_settings (UtilsDemo.host "/work/site/src") 5 1
           ["src"; ".gutenrc.json"; "package.json"]).
  - intros j Hj. assert (j = 0) by lia. subst j. split.
    + intros Heq. vm_compute in Heq. discriminate.
    + eexists. split; reflexivity.
  - intros Heq. vm_compute in Heq. discriminate.
  - reflexivity.
  - right. left. reflexivity.
  - lia.
Defined.

Lemma getRC_never_searches_the_root_witness :
  @getRC (UtilsDemo.host "/") 0 UtilsDemo.state
  = Some (UtilsDemo.state, Threw (Error not_initialized)).
Proof.
  apply (@getRC_never_searches_the_root (UtilsDemo.host "/") 0 0 UtilsDemo.state).
  - intros j Hj. lia.
  - reflexivity.
  - lia.
Defined.

Lemma getRC_settings_precedence_witness :
  exists rc,
    @getRC (UtilsDemo.host "/work/site/src") 5 UtilsDemo.state_stale
    = Some (UtilsDemo.state_stale, Returned (Some rc))
    /\ get "absPath" rc = Some (JsonString "/old/")
    /\ get "apiDir" rc = Some (JsonString "api/").
Proof.
  destruct (@getRC_settings_precedence (UtilsDemo.host "/work/site/src") 5
              UtilsDemo.state_stale "/work/site"
              (UtilsDemo.stringify_object UtilsDemo.rc_user) UtilsDemo.rc_user
              (JsonString "api/")
              (UtilsDemo.stringify_object UtilsDemo.rc_template_stale)
              UtilsDemo.rc_template_stale
              eq_refl eq_refl eq_refl eq_refl eq_refl eq_refl
              ltac:(distinct_keys) ltac:(distinct_keys))
    as (rc & Hrun & Hget).
  exists rc. split; [exact Hrun|]. split; rewrite Hget; reflexivity.
Defined.

Lemma getRC_never_writes_witness :
  match @getRC (UtilsDemo.host "/work/site/src") 5 UtilsDemo.state_corrupt with
  | Some (st', r) =>
      disk st' = disk UtilsDemo.state_corrupt
      /\ ((r = Returned None
           /\ exists call,
                refreshing st' = refreshing UtilsDemo.state_corrupt ++ [call])
          \/ (r <> Returned None
              /\ refreshing st' = refreshing UtilsDemo.state_corrupt))
  | None => False
  end.
Proof.
  destruct (@getRC (UtilsDemo.host "/work/site/src") 5 UtilsDemo.state_corrupt)
    as [[st' r]|] eqn:Hrun.
  - exact (@getRC_never_writes (UtilsDemo.host "/work/site/src") 5
             UtilsDemo.state_corrupt st' r Hrun).
  - vm_compute in Hrun. discriminate.
Defined.

Lemma setVerbosity_rejects_other_levels_witness :
  @setVerbosity (UtilsDemo.host "/work/site") (LevelNumber (Finite 6))
    (Some UtilsDemo.gutenrc) true UtilsDemo.state
  = (UtilsDemo.state, Threw (Error "Verbosity level must be a number from 0 to 5")).
Proof.
  apply (@setVerbosity_rejects_other_levels (UtilsDemo.host "/work/site")).
  intros q Hq [_ H5]. injection Hq as <-.
  apply (Qlt_not_le 5 6); [reflexivity | exact H5].
Defined.

Lemma half_level_in_range : (0 <= 5 # 2)%Q /\ (5 # 2 <= 5)%Q.
Proof. split; unfold Qle; simpl; lia. Qed.

Lemma setVerbosity_updates_the_project_file_witness :
  exists written st',
    @setVerbosity (UtilsDemo.host "/work/site") (LevelNumber (Finite (5 # 2)))
      (Some UtilsDemo.gutenrc) false UtilsDemo.state = (st', Returned tt)
    /\ get "/work/site/.gutenrc.json" (disk st')
       = Some (UtilsDemo.stringify_object written)
    /\ get "verbosity" written = Some (JsonNumber (5 # 2))
    /\ get "apiDir" written = Some (JsonString "api/").
Proof.
  destruct (@setVerbosity_updates_the_project_file (UtilsDemo.host "/work/site")
              (5 # 2) UtilsDemo.gutenrc "/work/site/"
              (UtilsDemo.stringify_object UtilsDemo.rc_user) UtilsDemo.rc_user
              UtilsDemo.state (proj1 half_level_in_range)
              (proj2 half_level_in_range) eq_refl eq_refl eq_refl)
    as (written & st' & Hrun & Hfile & _ & Hv & Hothers).
  exists written, st'. split; [exact Hrun|]. split; [exact Hfile|].
  split; [exact Hv|]. rewrite Hothers by discriminate. reflexivity.
Defined.


Lemma setVerbosity_keeps_local_update_on_global_failure_witness :
  exists st' e,
    @setVerbosity (UtilsDemo.host "/work/site") (LevelNumber (Finite (5 # 2)))
      (Some UtilsDemo.gutenrc) true UtilsDemo.state_no_template
    = (st', Threw (Native e))
    /\ get "/work/site/.gutenrc.json" (disk st')
       = Some (UtilsDemo.stringify_object
                 (set "verbosity" (JsonNumber (5 # 2)) UtilsDemo.rc_user)).
Proof.
  apply (@setVerbosity_keeps_local_update_on_global_failure
           (UtilsDemo.host "/work/site") (5 # 2) UtilsDemo.gutenrc "/work/site/"
           (UtilsDemo.stringify_object UtilsDemo.rc_user) UtilsDemo.rc_user
           UtilsDemo.state_no_template (proj1 half_level_in_range)
           (proj2 half_level_in_range) eq_refl eq_refl eq_refl eq_refl).
Defined.


Lemma addIgnore_replaces_file_associations_witness :
  exists written st',
    @addIgnoreToLangSettings (UtilsDemo.host "/work/site") "/work/site/"
      UtilsDemo.state = (st', Returned tt)
    /\ get "/work/site/.vscode/settings.json" (disk st')
       = Some (UtilsDemo.stringify_object written)
    /\ get "files.associations" written
       = Some (JsonObject [ (".gutenignore", JsonString "ignore") ])
    /\ get "editor.tabSize" written = Some (JsonNumber 2).
Proof.
  destruct (@addIgnore_replaces_file_associations (UtilsDemo.host "/work/site")
              "/work/site/" UtilsDemo.state
              (UtilsDemo.stringify_object UtilsDemo.vscode_settings)
              UtilsDemo.vscode_settings eq_refl eq_refl eq_refl)
    as (written & st' & Hrun & Hfile & Hassoc & Hothers).
  exists written, st'. split; [exact Hrun|]. split; [exact Hfile|].
  split; [exact Hassoc|]. rewrite Hothers by discriminate. reflexivity.
Defined.

Lemma addIgnore_leaves_unreadable_settings_witness :
  @addIgnoreToLangSettings (UtilsDemo.host "/work/site") "/elsewhere/"
    UtilsDemo.state = (UtilsDemo.state, Returned tt).
Proof.
  apply (@addIgnore_leaves_unreadable_settings (UtilsDemo.host "/work/site")).
  left. reflexivity.
Defined.

Lemma setTheme_merges_theme_without_description_witness :
  exists written st',
    @setTheme (UtilsDemo.host "/work/site") UtilsDemo.rc_record "dark"
      UtilsDemo.state = (st', Returned tt)
    /\ get "/work/site/api/designSettings.js" (disk st')
       = Some (addDesignSettingsTemplate (UtilsDemo.stringify_object written))
    /\ get "description" written = Some (JsonString "current look")
    /\ get "color" written = Some (JsonString "black")
    /\ get "font" written = Some (JsonString "serif").
Proof.
  pose proof (@setTheme_merges_theme_without_description
                (UtilsDemo.host "/work/site") UtilsDemo.rc_record "dark"
                UtilsDemo.state
                (addDesignSettingsTemplate
                   (UtilsDemo.stringify_object UtilsDemo.design))
                UtilsDemo.design
                (UtilsDemo.stringify_object UtilsDemo.theme_dark)
                UtilsDemo.theme_dark) as W.
  cbv zeta in W.
  destruct (W eq_refl eq_refl eq_refl eq_refl ltac:(distinct_keys))
    as (written & st' & Hrun & Hfile & _ & Hdesc & Hothers).
  exists written, st'. split; [exact Hrun|]. split; [exact Hfile|].
  split; [rewrite Hdesc; reflexivity|].
  split; rewrite Hothers by discriminate; reflexivity.
Defined.

End UtilsFacts.
